(** * TabletPeer: lifecycle state machine and operation submission

    A shallow embedding of [src/tablet/tablet_peer.cc] (namespace
    [kudu::tablet]).  Every member function of [TabletPeer] is rendered
    statement by statement in a small monad that threads the peer object,
    records the calls made on the collaborators (consensus, executors,
    tablet metadata, transactions) in a chronological trace, and can abort
    the process (a failed [CHECK]/[DCHECK] or a null dereference).

    The collaborators themselves live in other translation units; what they
    answer is an input of each call ([Collaborators]). *)

From Stdlib Require Import ZArith List Bool String Lia.
Import ListNotations.

Local Open Scope string_scope.
Local Open Scope Z_scope.
Local Open Scope list_scope.

(* ====================================================================== *)
(** ** Data model *)
(* ====================================================================== *)

(** Modelled from the spec: the enum [metadata::TabletStatePB] is declared
    in the metadata protocol file, which is not part of this source tree.
    Its values are the four lifecycle states that the specification names
    (section 4.1).  [tablet_peer.cc] itself only ever mentions the first
    three. *)
Inductive TabletStatePB : Set :=
| BOOTSTRAPPING
| CONFIGURING
| RUNNING
| SHUTDOWN.

Definition state_eqb (a b : TabletStatePB) : bool :=
  match a, b with
  | BOOTSTRAPPING, BOOTSTRAPPING => true
  | CONFIGURING, CONFIGURING => true
  | RUNNING, RUNNING => true
  | SHUTDOWN, SHUTDOWN => true
  | _, _ => false
  end.

(** [util/status.h]: a status is either OK or an error kind with a
    message.  Only [IllegalState] is produced by this file; every other
    kind comes back from a collaborator. *)
Inductive ErrorKind : Set :=
| kIllegalState
| kIOError
| kCorruption
| kNotFound
| kInvalidArgument
| kRuntimeError
| kServiceUnavailable.

Inductive Status : Set :=
| OK
| Error (kind : ErrorKind) (msg : string).

Definition IllegalState (msg : string) : Status := Error kIllegalState msg.

Definition ok (s : Status) : bool :=
  match s with OK => true | Error _ _ => false end.

(** Protocol-buffer payloads, opaque to the peer. *)
Record QuorumPeerPB : Set := { permanent_uuid : string }.
Record QuorumPB : Set := { seqno : Z; peers : list QuorumPeerPB }.

Definition QuorumPeerPB_default : QuorumPeerPB := {| permanent_uuid := "" |}.

(** The write-ahead log handle, opaque to the peer. *)
Record Log : Set := { log_id : Z }.

Record ConsensusOptions : Set := { }.

(** [consensus_] points to the object built by
    [new LocalConsensus(ConsensusOptions())]. *)
Inductive Consensus : Set :=
| LocalConsensus (opts : ConsensusOptions).

(** Modelled from the spec: [TabletMetadata] is not part of this source
    tree.  [SetQuorum] stores the configuration in memory ([quorum]) and a
    successful [Flush] makes the in-memory record durable
    ([flushed_quorum]); a failed [Flush] leaves the durable record as it
    was. *)
Record TabletMetadata : Set := {
  oid : string;
  quorum : option QuorumPB;
  flushed_quorum : option QuorumPB
}.

Record Tablet : Set := {
  metadata : TabletMetadata;
  tablet_consensus : option Consensus
}.

(** Modelled from the spec: [TaskExecutor::CreateNew(name, thread_count)]
    constructs a pool with [thread_count] workers (section 4.2). *)
Record TaskExecutor : Set := {
  exec_name : string;
  exec_threads : Z
}.

Definition TaskExecutor_CreateNew (name : string) (n : Z) : TaskExecutor :=
  {| exec_name := name; exec_threads := n |}.

(** The three locks owned by a peer. *)
Inductive Lock : Set :=
| internal_state_lock_
| config_lock_
| prepare_replicate_lock_.

Definition lock_eqb (a b : Lock) : bool :=
  match a, b with
  | internal_state_lock_, internal_state_lock_ => true
  | config_lock_, config_lock_ => true
  | prepare_replicate_lock_, prepare_replicate_lock_ => true
  | _, _ => false
  end.

(** Transaction contexts, opaque payloads handed in by the caller. *)
Record WriteTransactionContext : Set := { write_payload : Z }.
Record AlterSchemaTransactionContext : Set := { alter_payload : Z }.
Record ChangeConfigTransactionContext : Set := { config_payload : Z }.

Inductive TxContext : Set :=
| WriteCtx (c : WriteTransactionContext)
| AlterSchemaCtx (c : AlterSchemaTransactionContext)
| ChangeConfigCtx (c : ChangeConfigTransactionContext).

(** What a leader transaction is constructed with: the raw pointers
    [consensus_.get()], [prepare_executor_.get()], [apply_executor_.get()]
    (each possibly null), the ordering lock, and, for a configuration
    change only, the address of the configuration lock. *)
Record Transaction : Set := {
  tx_ctx : TxContext;
  tx_consensus : option Consensus;
  tx_prepare_executor : option TaskExecutor;
  tx_apply_executor : option TaskExecutor;
  tx_prepare_replicate_lock : Lock;
  tx_config_lock : option Lock
}.

Definition LeaderWriteTransaction (c : WriteTransactionContext)
    (consensus : option Consensus) (prepare apply : option TaskExecutor)
    (l : Lock) : Transaction :=
  {| tx_ctx := WriteCtx c; tx_consensus := consensus;
     tx_prepare_executor := prepare; tx_apply_executor := apply;
     tx_prepare_replicate_lock := l; tx_config_lock := None |}.

Definition LeaderAlterSchemaTransaction (c : AlterSchemaTransactionContext)
    (consensus : option Consensus) (prepare apply : option TaskExecutor)
    (l : Lock) : Transaction :=
  {| tx_ctx := AlterSchemaCtx c; tx_consensus := consensus;
     tx_prepare_executor := prepare; tx_apply_executor := apply;
     tx_prepare_replicate_lock := l; tx_config_lock := None |}.

Definition LeaderChangeConfigTransaction (c : ChangeConfigTransactionContext)
    (consensus : option Consensus) (prepare apply : option TaskExecutor)
    (l : Lock) (cfg : Lock) : Transaction :=
  {| tx_ctx := ChangeConfigCtx c; tx_consensus := consensus;
     tx_prepare_executor := prepare; tx_apply_executor := apply;
     tx_prepare_replicate_lock := l; tx_config_lock := Some cfg |}.

(** The peer object.  The smart pointers are nullable, hence [option]. *)
Record TabletPeer : Set := {
  state_ : TabletStatePB;
  tablet_ : option Tablet;
  quorum_peer_ : QuorumPeerPB;
  log_ : option Log;
  consensus_ : option Consensus;
  prepare_executor_ : option TaskExecutor;
  apply_executor_ : option TaskExecutor
}.

(** Calls that leave the peer object, and the accesses to [state_] and to
    the locks, in the order in which they happen. *)
Inductive Event : Set :=
| EvLock (l : Lock)
| EvUnlock (l : Lock)
| EvReadState (s : TabletStatePB)
| EvWriteState (s : TabletStatePB)
| EvExecutorCreate (e : TaskExecutor)
| EvConsensusNew
| EvConsensusInit (p : QuorumPeerPB) (l : option Log)
| EvConsensusStart (q : QuorumPB)
| EvConsensusShutdown
| EvSetQuorum (q : QuorumPB)
| EvMetadataFlush (result : Status)
| EvSetConsensus
| EvExecutorShutdown (e : TaskExecutor)
| EvLogWarning (msg : string)
| EvVLog (msg : string)
| EvNewTransaction (t : Transaction)
| EvExecute (t : Transaction).

(** What the collaborators answer during one call, and the two build and
    run-time switches the file depends on: whether [DCHECK] is compiled in
    (a debug build) and whether [VLOG(1)] is enabled. *)
Record Collaborators : Set := {
  consensus_Init : QuorumPeerPB -> option Log -> Status;
  consensus_Start : QuorumPB -> Status * option QuorumPB;
  consensus_Shutdown : Status;
  metadata_Flush : Status;
  transaction_Execute : Transaction -> Status;
  dcheck_is_on : bool;
  vlog_is_on : bool
}.

(* ====================================================================== *)
(** ** The monad: peer object, trace, process abort *)
(* ====================================================================== *)

Record World : Set := {
  peer : TabletPeer;
  trace : list Event
}.

Inductive Result (A : Type) : Type :=
| Returned (a : A) (w : World)
| Aborted (why : string) (w : World).

Arguments Returned {A} a w.
Arguments Aborted {A} why w.

Definition M (A : Type) : Type := World -> Result A.

Definition ret {A} (a : A) : M A := fun w => Returned a w.

Definition bind {A B} (m : M A) (k : A -> M B) : M B :=
  fun w =>
    match m w with
    | Returned a w' => k a w'
    | Aborted why w' => Aborted why w'
    end.

Declare Scope peer_scope.
Delimit Scope peer_scope with peer.
Notation "x <- m ;; k" := (bind m (fun x => k))
  (at level 61, m at next level, right associativity) : peer_scope.
Notation "m ;; k" := (bind m (fun _ => k))
  (at level 61, right associativity) : peer_scope.
Local Open Scope peer_scope.

Definition abort {A} (why : string) : M A := fun w => Aborted why w.

Definition emit (e : Event) : M unit :=
  fun w => Returned tt {| peer := peer w; trace := trace w ++ [e] |}.

Definition get_peer : M TabletPeer := fun w => Returned (peer w) w.

Definition modify (f : TabletPeer -> TabletPeer) : M unit :=
  fun w => Returned tt {| peer := f (peer w); trace := trace w |}.

(** [boost::lock_guard] over a block: the lock is taken on entry and
    released when the block is left, also when it is left by [return]. *)
Definition lock_guard {A} (l : Lock) (body : M A) : M A :=
  emit (EvLock l) ;;
  r <- body ;;
  emit (EvUnlock l) ;;
  ret r.

(** [p->...] on a smart pointer: a null pointer ends the process. *)
Definition deref {A} (what : string) (p : option A) : M A :=
  match p with
  | Some a => ret a
  | None => abort (String.append "null dereference: " what)
  end.

(** [CHECK(cond) << msg] is always compiled in. *)
Definition CHECK (cond : bool) (msg : string) : M unit :=
  if cond then ret tt else abort (String.append "Check failed: " msg).

(** [DCHECK(cond) << msg] is [CHECK] in a debug build, nothing otherwise. *)
Definition DCHECK (env : Collaborators) (cond : bool) (msg : string) : M unit :=
  if dcheck_is_on env then CHECK cond msg else ret tt.

Definition is_some {A} (o : option A) : bool :=
  match o with Some _ => true | None => false end.

(** Field accessors. *)
Definition set_state (s : TabletStatePB) : M unit :=
  emit (EvWriteState s) ;;
  modify (fun p =>
    {| state_ := s; tablet_ := tablet_ p; quorum_peer_ := quorum_peer_ p;
       log_ := log_ p; consensus_ := consensus_ p;
       prepare_executor_ := prepare_executor_ p;
       apply_executor_ := apply_executor_ p |}).

Definition get_state : M TabletStatePB :=
  p <- get_peer ;;
  emit (EvReadState (state_ p)) ;;
  ret (state_ p).

Definition set_tablet (t : option Tablet) : M unit :=
  modify (fun p =>
    {| state_ := state_ p; tablet_ := t; quorum_peer_ := quorum_peer_ p;
       log_ := log_ p; consensus_ := consensus_ p;
       prepare_executor_ := prepare_executor_ p;
       apply_executor_ := apply_executor_ p |}).

Definition set_quorum_peer (q : QuorumPeerPB) : M unit :=
  modify (fun p =>
    {| state_ := state_ p; tablet_ := tablet_ p; quorum_peer_ := q;
       log_ := log_ p; consensus_ := consensus_ p;
       prepare_executor_ := prepare_executor_ p;
       apply_executor_ := apply_executor_ p |}).

Definition set_log (l : option Log) : M unit :=
  modify (fun p =>
    {| state_ := state_ p; tablet_ := tablet_ p; quorum_peer_ := quorum_peer_ p;
       log_ := l; consensus_ := consensus_ p;
       prepare_executor_ := prepare_executor_ p;
       apply_executor_ := apply_executor_ p |}).

Definition set_consensus (c : option Consensus) : M unit :=
  modify (fun p =>
    {| state_ := state_ p; tablet_ := tablet_ p; quorum_peer_ := quorum_peer_ p;
       log_ := log_ p; consensus_ := c;
       prepare_executor_ := prepare_executor_ p;
       apply_executor_ := apply_executor_ p |}).

(** Mutations of the tablet behind [tablet_]. *)
Definition Tablet_SetQuorum (q : QuorumPB) (t : Tablet) : Tablet :=
  {| metadata := {| oid := oid (metadata t); quorum := Some q;
                    flushed_quorum := flushed_quorum (metadata t) |};
     tablet_consensus := tablet_consensus t |}.

Definition Tablet_Flushed (t : Tablet) : Tablet :=
  {| metadata := {| oid := oid (metadata t); quorum := quorum (metadata t);
                    flushed_quorum := quorum (metadata t) |};
     tablet_consensus := tablet_consensus t |}.

Definition Tablet_SetConsensus (c : option Consensus) (t : Tablet) : Tablet :=
  {| metadata := metadata t; tablet_consensus := c |}.

(** [tablet_->metadata()->SetQuorum(q)] *)
Definition metadata_SetQuorum (q : QuorumPB) : M unit :=
  p <- get_peer ;;
  t <- deref "tablet_" (tablet_ p) ;;
  emit (EvSetQuorum q) ;;
  set_tablet (Some (Tablet_SetQuorum q t)).

(** [tablet_->metadata()->Flush()] *)
Definition metadata_Flush_call (env : Collaborators) : M Status :=
  p <- get_peer ;;
  t <- deref "tablet_" (tablet_ p) ;;
  emit (EvMetadataFlush (metadata_Flush env)) ;;
  (if ok (metadata_Flush env)
   then set_tablet (Some (Tablet_Flushed t))
   else ret tt) ;;
  ret (metadata_Flush env).

(** [tablet_->SetConsensus(consensus_.get())] *)
Definition tablet_SetConsensus_call : M unit :=
  p <- get_peer ;;
  t <- deref "tablet_" (tablet_ p) ;;
  emit EvSetConsensus ;;
  set_tablet (Some (Tablet_SetConsensus (consensus_ p) t)).

(** [executor->Shutdown()] *)
Definition executor_Shutdown (what : string) (e : option TaskExecutor) : M unit :=
  x <- deref what e ;;
  emit (EvExecutorShutdown x).

(** [new T(...)] followed by the bookkeeping of the trace. *)
Definition new_transaction (t : Transaction) : M Transaction :=
  emit (EvNewTransaction t) ;;
  ret t.

(** [transaction->Execute()] *)
Definition Execute (env : Collaborators) (t : Transaction) : M Status :=
  emit (EvExecute t) ;;
  ret (transaction_Execute env t).

(* ====================================================================== *)
(** ** TabletPeer::TabletPeer *)
(* ====================================================================== *)

(** [int n_cpus = sysconf(...)]: the [long] result is narrowed to a 32-bit
    [int]. *)
Definition int_of_long (x : Z) : Z := (x + 2 ^ 31) mod 2 ^ 32 - 2 ^ 31.

(** The object under construction: members that the constructor has not
    reached yet hold their default (null) value; [state_] is assigned by
    the last statement only. *)
Inductive Constructed : Type :=
| NewPeer (w : World)
| CheckFailed (why : string) (created : list Event).

(** The constructor reads two things from the host: [errno] after the
    call of [sysconf(_SC_NPROCESSORS_CONF)] and the value it returned. *)
Definition TabletPeer_new (errno sysconf_result : Z) : Constructed :=
  let prepare := TaskExecutor_CreateNew "prepare exec" 1 in
  let n_cpus := int_of_long sysconf_result in
  if negb (errno =? 0) then
    CheckFailed "Check failed: errno == 0" [EvExecutorCreate prepare]
  else if negb (n_cpus >? 0) then
    CheckFailed "Check failed: n_cpus > 0" [EvExecutorCreate prepare]
  else
    let apply := TaskExecutor_CreateNew "apply exec" n_cpus in
    NewPeer
      {| peer := {| state_ := BOOTSTRAPPING;
                    tablet_ := None;
                    quorum_peer_ := QuorumPeerPB_default;
                    log_ := None;
                    consensus_ := None;
                    prepare_executor_ := Some prepare;
                    apply_executor_ := Some apply |};
         trace := [EvExecutorCreate prepare; EvExecutorCreate apply;
                   EvWriteState BOOTSTRAPPING] |}.

(* ====================================================================== *)
(** ** TabletPeer::Init *)
(* ====================================================================== *)

Definition Init (env : Collaborators) (tablet : option Tablet)
    (quorum_peer : QuorumPeerPB) (log : option Log) : M Status :=
  lock_guard internal_state_lock_ (
    set_state CONFIGURING ;;
    set_tablet tablet ;;
    set_quorum_peer quorum_peer ;;
    set_log log ;;
    emit EvConsensusNew ;;
    set_consensus (Some (LocalConsensus Build_ConsensusOptions))) ;;
  p <- get_peer ;;
  DCHECK env (is_some (tablet_ p)) "A TabletPeer must be provided with a Tablet" ;;
  DCHECK env (is_some (log_ p)) "A TabletPeer must be provided with a Log" ;;
  (* RETURN_NOT_OK(consensus_->Init(quorum_peer_, log_.get())) *)
  _ <- deref "consensus_" (consensus_ p) ;;
  emit (EvConsensusInit (quorum_peer_ p) (log_ p)) ;;
  let s := consensus_Init env (quorum_peer_ p) (log_ p) in
  if negb (ok s) then ret s else
  tablet_SetConsensus_call ;;
  ret OK.

(* ====================================================================== *)
(** ** TabletPeer::Start *)
(* ====================================================================== *)

Definition Start (env : Collaborators) (quorum : QuorumPB) : M Status :=
  lock_guard config_lock_ (
    p <- get_peer ;;
    (* RETURN_NOT_OK(consensus_->Start(quorum, &actual_config)) *)
    _ <- deref "consensus_" (consensus_ p) ;;
    emit (EvConsensusStart quorum) ;;
    let '(s, actual_config) := consensus_Start env quorum in
    if negb (ok s) then ret s else
    cfg <- deref "actual_config" actual_config ;;
    metadata_SetQuorum cfg ;;
    (* RETURN_NOT_OK(tablet_->metadata()->Flush()) *)
    s' <- metadata_Flush_call env ;;
    if negb (ok s') then ret s' else
    lock_guard internal_state_lock_ (set_state RUNNING) ;;
    ret OK).

(* ====================================================================== *)
(** ** TabletPeer::Shutdown *)
(* ====================================================================== *)

Definition Shutdown (env : Collaborators) : M Status :=
  p <- get_peer ;;
  _ <- deref "consensus_" (consensus_ p) ;;
  emit EvConsensusShutdown ;;
  let s := consensus_Shutdown env in
  (if negb (ok s)
   then emit (EvLogWarning "Consensus shutdown failed")
   else ret tt) ;;
  executor_Shutdown "prepare_executor_" (prepare_executor_ p) ;;
  executor_Shutdown "apply_executor_" (apply_executor_ p) ;;
  (if vlog_is_on env
   then t <- deref "tablet_" (tablet_ p) ;;
        emit (EvVLog (oid (metadata t)))
   else ret tt) ;;
  ret OK.

(* ====================================================================== *)
(** ** TabletPeer::SubmitWrite, SubmitAlterSchema, SubmitChangeConfig *)
(* ====================================================================== *)

(** The guarded block at the head of [SubmitWrite] and
    [SubmitAlterSchema]: [Some s] when the block is left by [return s]. *)
Definition check_running : M (option Status) :=
  lock_guard internal_state_lock_ (
    s <- get_state ;;
    if negb (state_eqb s RUNNING)
    then ret (Some (IllegalState "Tablet not in RUNNING state."))
    else ret None).

Definition SubmitWrite (env : Collaborators) (tx_ctx : WriteTransactionContext)
    : M Status :=
  r <- check_running ;;
  match r with
  | Some s => ret s
  | None =>
      p <- get_peer ;;
      transaction <- new_transaction
        (LeaderWriteTransaction tx_ctx (consensus_ p) (prepare_executor_ p)
           (apply_executor_ p) prepare_replicate_lock_) ;;
      Execute env transaction
  end.

Definition SubmitAlterSchema (env : Collaborators)
    (tx_ctx : AlterSchemaTransactionContext) : M Status :=
  r <- check_running ;;
  match r with
  | Some s => ret s
  | None =>
      p <- get_peer ;;
      transaction <- new_transaction
        (LeaderAlterSchemaTransaction tx_ctx (consensus_ p)
           (prepare_executor_ p) (apply_executor_ p)
           prepare_replicate_lock_) ;;
      Execute env transaction
  end.

Definition SubmitChangeConfig (env : Collaborators)
    (tx_ctx : ChangeConfigTransactionContext) : M Status :=
  p <- get_peer ;;
  transaction <- new_transaction
    (LeaderChangeConfigTransaction tx_ctx (consensus_ p)
       (prepare_executor_ p) (apply_executor_ p)
       prepare_replicate_lock_ config_lock_) ;;
  Execute env transaction.

(* ====================================================================== *)
(** ** Running calls *)
(* ====================================================================== *)

(** The world in which a call ends, whether it returned or aborted. *)
Definition world_of {A} (r : Result A) : World :=
  match r with
  | Returned _ w => w
  | Aborted _ w => w
  end.

Definition returned {A} (r : Result A) : option A :=
  match r with
  | Returned a _ => Some a
  | Aborted _ _ => None
  end.

(** The events that a call appended to the trace of the world it started
    in. *)
Definition new_events (before after : World) : list Event :=
  skipn (List.length (trace before)) (trace after).

(** The public entry points, each with what the collaborators answer
    while it runs. *)
Inductive Call : Type :=
| CallInit (env : Collaborators) (tablet : option Tablet)
    (quorum_peer : QuorumPeerPB) (log : option Log)
| CallStart (env : Collaborators) (quorum : QuorumPB)
| CallShutdown (env : Collaborators)
| CallSubmitWrite (env : Collaborators) (c : WriteTransactionContext)
| CallSubmitAlterSchema (env : Collaborators) (c : AlterSchemaTransactionContext)
| CallSubmitChangeConfig (env : Collaborators) (c : ChangeConfigTransactionContext).

Definition call (c : Call) : M Status :=
  match c with
  | CallInit env tablet quorum_peer log => Init env tablet quorum_peer log
  | CallStart env quorum => Start env quorum
  | CallShutdown env => Shutdown env
  | CallSubmitWrite env c => SubmitWrite env c
  | CallSubmitAlterSchema env c => SubmitAlterSchema env c
  | CallSubmitChangeConfig env c => SubmitChangeConfig env c
  end.

(** The worlds after each call of a sequence; a call that aborts the
    process ends the sequence. *)
Fixpoint run (cs : list Call) (w : World) : list World :=
  match cs with
  | [] => []
  | c :: cs' =>
      match call c w with
      | Returned _ w' => w' :: run cs' w'
      | Aborted _ w' => [w']
      end
  end.

(** Position of a state on the line BOOTSTRAPPING, CONFIGURING, RUNNING,
    with the terminal state last. *)
Definition rank (s : TabletStatePB) : nat :=
  match s with
  | BOOTSTRAPPING => 0
  | CONFIGURING => 1
  | RUNNING => 2
  | SHUTDOWN => 3
  end.

Fixpoint nondecreasing (l : list nat) : bool :=
  match l with
  | a :: ((b :: _) as t) => Nat.leb a b && nondecreasing t
  | _ => true
  end.

Definition is_Init (c : Call) : bool :=
  match c with CallInit _ _ _ _ => true | _ => false end.

(** No call of Init is made while the peer is RUNNING. *)
Fixpoint no_Init_while_running (cs : list Call) (w : World) : bool :=
  match cs with
  | [] => true
  | c :: cs' =>
      negb (is_Init c && state_eqb (state_ (peer w)) RUNNING) &&
      match call c w with
      | Returned _ w' => no_Init_while_running cs' w'
      | Aborted _ _ => true
      end
  end.

Definition is_shutdown_of (x : TaskExecutor) (e : Event) : bool :=
  match e with
  | EvExecutorShutdown y =>
      String.eqb (exec_name x) (exec_name y) && (exec_threads x =? exec_threads y)
  | _ => false
  end.

Definition is_consensus_shutdown (e : Event) : bool :=
  match e with EvConsensusShutdown => true | _ => false end.

(** How often a resource was released (its Shutdown called) in a trace. *)
Definition releases (f : Event -> bool) (tr : list Event) : nat :=
  List.length (filter f tr).

(* ====================================================================== *)
(** ** Fixtures *)
(* ====================================================================== *)

Definition quorum0 : QuorumPB :=
  {| seqno := 0; peers := [ {| permanent_uuid := "peer-a" |} ] |}.

Definition quorum1 : QuorumPB :=
  {| seqno := 1; peers := [ {| permanent_uuid := "peer-a" |} ] |}.

Definition tablet0 : Tablet :=
  {| metadata := {| oid := "tablet-0"; quorum := None; flushed_quorum := None |};
     tablet_consensus := None |}.

Definition log0 : Log := {| log_id := 7 |}.

Definition peer_a : QuorumPeerPB := {| permanent_uuid := "peer-a" |}.

(** Every collaborator succeeds; consensus answers [quorum1] whatever
    is requested. *)
Definition env_ok (debug : bool) : Collaborators :=
  {| consensus_Init := fun _ _ => OK;
     consensus_Start := fun _ => (OK, Some quorum1);
     consensus_Shutdown := OK;
     metadata_Flush := OK;
     transaction_Execute := fun _ => OK;
     dcheck_is_on := debug;
     vlog_is_on := false |}.

Definition env_flush_fails : Collaborators :=
  {| consensus_Init := fun _ _ => OK;
     consensus_Start := fun _ => (OK, Some quorum1);
     consensus_Shutdown := OK;
     metadata_Flush := Error kIOError "disk full";
     transaction_Execute := fun _ => OK;
     dcheck_is_on := true;
     vlog_is_on := false |}.

Definition env_consensus_fails : Collaborators :=
  {| consensus_Init := fun _ _ => OK;
     consensus_Start := fun _ => (Error kRuntimeError "no quorum", None);
     consensus_Shutdown := Error kRuntimeError "still busy";
     metadata_Flush := OK;
     transaction_Execute := fun _ => OK;
     dcheck_is_on := true;
     vlog_is_on := true |}.

(** A peer on a host with four processors, just constructed. *)
Definition fresh_world : World :=
  match TabletPeer_new 0 4 with
  | NewPeer w => w
  | CheckFailed _ tr =>
      {| peer := {| state_ := BOOTSTRAPPING; tablet_ := None;
                    quorum_peer_ := QuorumPeerPB_default; log_ := None;
                    consensus_ := None; prepare_executor_ := None;
                    apply_executor_ := None |};
         trace := tr |}
  end.

(** The same peer after a successful Init, and after a successful Start. *)
Definition configuring_world : World :=
  world_of (Init (env_ok true) (Some tablet0) peer_a (Some log0) fresh_world).

Definition running_world : World :=
  world_of (Start (env_ok true) quorum0 configuring_world).

(** The transactions constructed in a trace, in order of construction. *)
Fixpoint transactions_of (tr : list Event) : list Transaction :=
  match tr with
  | [] => []
  | EvNewTransaction t :: tr' => t :: transactions_of tr'
  | _ :: tr' => transactions_of tr'
  end.

(** The transactions that a call constructs when started in [w]. *)
Definition constructed_by (m : M Status) (w : World) : list Transaction :=
  transactions_of (new_events w (world_of (m w))).

(* ====================================================================== *)
(** ** Transaction execution: admission to prepare and to replicate *)
(* ====================================================================== *)

(** Where a transaction stands in its [Execute]. *)
Inductive Phase : Set :=
| NotStarted
| HoldsConfigLock
| HoldsOrderingLock
| PrepareSubmitted
| ReplicateSubmitted
| Aborting
| OrderingLockReleased
| Finished.

(** Transactions are executed by concurrent caller threads; thread [t]
    executes the [t]-th transaction.  The shared state is who holds each
    lock, the order in which prepare units entered the prepare pool, and
    the order in which operations were handed to the replication
    module. *)
Record Pipeline : Type := {
  phase : nat -> Phase;
  holder : Lock -> option nat;
  prepare_queue : list nat;
  replicate_log : list nat
}.

Definition initial : Pipeline :=
  {| phase := fun _ => NotStarted;
     holder := fun _ => None;
     prepare_queue := [];
     replicate_log := [] |}.

Definition set_phase (t : nat) (ph : Phase) (f : nat -> Phase) : nat -> Phase :=
  fun t' => if Nat.eqb t' t then ph else f t'.

Definition set_holder (l : Lock) (h : option nat) (f : Lock -> option nat)
    : Lock -> option nat :=
  fun l' => if lock_eqb l' l then h else f l'.

(** Taking a lock is possible only while nobody holds it. *)
Definition acquire (l : Lock) (t : nat) (next : Phase) (s : Pipeline)
    : option Pipeline :=
  match holder s l with
  | Some _ => None
  | None =>
      Some {| phase := set_phase t next (phase s);
              holder := set_holder l (Some t) (holder s);
              prepare_queue := prepare_queue s;
              replicate_log := replicate_log s |}
  end.

Definition release (l : Lock) (t : nat) (next : Phase) (s : Pipeline)
    : Pipeline :=
  {| phase := set_phase t next (phase s);
     holder := set_holder l None (holder s);
     prepare_queue := prepare_queue s;
     replicate_log := replicate_log s |}.

Definition move (t : nat) (next : Phase) (s : Pipeline) : Pipeline :=
  {| phase := set_phase t next (phase s);
     holder := holder s;
     prepare_queue := prepare_queue s;
     replicate_log := replicate_log s |}.

(** One scheduling decision: thread [t] takes its next step, or the step
    it is about to take (submission to the prepare pool, admission to
    replicate) fails. *)
Inductive Action : Set :=
| Advance (t : nat)
| Refuse (t : nat).

(** Modelled from the spec: [Execute] of the leader transactions is
    defined under [tablet/transactions/], which is not part of this source
    tree.  Section 4.3: an operation holds the ordering lock it was
    constructed with across the pair (submit to the prepare pool, submit
    to replicate); a failure at prepare or at replicate aborts the
    operation without attempting the later phases; a configuration change
    additionally holds its configuration lock for its entire execution.
    The result is [None] when the action is not enabled (the thread is
    blocked on a lock, has finished, or does not exist). *)
Definition step (txs : list Transaction) (a : Action) (s : Pipeline)
    : option Pipeline :=
  match a with
  | Advance t =>
      match nth_error txs t with
      | None => None
      | Some tx =>
          match phase s t with
          | NotStarted =>
              match tx_config_lock tx with
              | Some cfg => acquire cfg t HoldsConfigLock s
              | None => acquire (tx_prepare_replicate_lock tx) t HoldsOrderingLock s
              end
          | HoldsConfigLock =>
              acquire (tx_prepare_replicate_lock tx) t HoldsOrderingLock s
          | HoldsOrderingLock =>
              Some {| phase := set_phase t PrepareSubmitted (phase s);
                      holder := holder s;
                      prepare_queue := prepare_queue s ++ [t];
                      replicate_log := replicate_log s |}
          | PrepareSubmitted =>
              Some {| phase := set_phase t ReplicateSubmitted (phase s);
                      holder := holder s;
                      prepare_queue := prepare_queue s;
                      replicate_log := replicate_log s ++ [t] |}
          | ReplicateSubmitted | Aborting =>
              Some (release (tx_prepare_replicate_lock tx) t OrderingLockReleased s)
          | OrderingLockReleased =>
              match tx_config_lock tx with
              | Some cfg => Some (release cfg t Finished s)
              | None => Some (move t Finished s)
              end
          | Finished => None
          end
      end
  | Refuse t =>
      match nth_error txs t with
      | None => None
      | Some _ =>
          match phase s t with
          | HoldsOrderingLock | PrepareSubmitted => Some (move t Aborting s)
          | _ => None
          end
      end
  end.

(** A schedule is a sequence of scheduling decisions. *)
Fixpoint exec (txs : list Transaction) (sched : list Action) (s : Pipeline)
    : option Pipeline :=
  match sched with
  | [] => Some s
  | a :: sched' =>
      match step txs a s with
      | Some s' => exec txs sched' s'
      | None => None
      end
  end.

(** [a] occurs before [b] in [l]. *)
Definition before (a b : nat) (l : list nat) : Prop :=
  exists l1 l2 l3, l = l1 ++ a :: l2 ++ b :: l3.

(** All transactions are ordered by the one lock [l], and none uses [l]
    as its configuration lock. *)
Definition ordering_domain (l : Lock) (txs : list Transaction) : Prop :=
  Forall (fun tx => tx_prepare_replicate_lock tx = l /\
                    tx_config_lock tx <> Some l) txs.

Definition mem (l : list nat) (t : nat) : bool := existsb (Nat.eqb t) l.

(** The events of a Shutdown on a peer whose handles are attached. *)
Definition Shutdown_events (env : Collaborators) (p : TabletPeer)
    (pe ae : TaskExecutor) : list Event :=
  [EvConsensusShutdown] ++
  (if ok (consensus_Shutdown env) then []
   else [EvLogWarning "Consensus shutdown failed"]) ++
  [EvExecutorShutdown pe; EvExecutorShutdown ae] ++
  (if vlog_is_on env
   then match tablet_ p with
        | Some t => [EvVLog (oid (metadata t))]
        | None => []
        end
   else []).

(** The world in which a rejected submission ends. *)
Definition rejected (w : World) : World :=
  {| peer := peer w;
     trace := trace w ++ [EvLock internal_state_lock_;
                          EvReadState (state_ (peer w));
                          EvUnlock internal_state_lock_] |}.

(** The transaction that each Submit entry point constructs on peer [p]. *)
Definition write_tx (p : TabletPeer) (c : WriteTransactionContext) : Transaction :=
  LeaderWriteTransaction c (consensus_ p) (prepare_executor_ p)
    (apply_executor_ p) prepare_replicate_lock_.

Definition alter_schema_tx (p : TabletPeer) (c : AlterSchemaTransactionContext)
    : Transaction :=
  LeaderAlterSchemaTransaction c (consensus_ p) (prepare_executor_ p)
    (apply_executor_ p) prepare_replicate_lock_.

Definition change_config_tx (p : TabletPeer) (c : ChangeConfigTransactionContext)
    : Transaction :=
  LeaderChangeConfigTransaction c (consensus_ p) (prepare_executor_ p)
    (apply_executor_ p) prepare_replicate_lock_ config_lock_.

(** The world after a transaction was constructed and executed. *)
Definition submitted (t : Transaction) (w : World) : World :=
  {| peer := peer w;
     trace := trace w ++ [EvNewTransaction t; EvExecute t] |}.

(** The world right after the guarded block at the head of Init. *)
Definition attached (tablet : option Tablet) (quorum_peer : QuorumPeerPB)
    (log : option Log) (w : World) : World :=
  {| peer := {| state_ := CONFIGURING;
                tablet_ := tablet;
                quorum_peer_ := quorum_peer;
                log_ := log;
                consensus_ := Some (LocalConsensus Build_ConsensusOptions);
                prepare_executor_ := prepare_executor_ (peer w);
                apply_executor_ := apply_executor_ (peer w) |};
     trace := trace w ++ [EvLock internal_state_lock_;
                          EvWriteState CONFIGURING;
                          EvConsensusNew;
                          EvUnlock internal_state_lock_] |}.

(** The configuration that is durably recorded for the peer's tablet. *)
Definition durable_quorum (w : World) : option QuorumPB :=
  match tablet_ (peer w) with
  | Some t => flushed_quorum (metadata t)
  | None => None
  end.

(** The events of a Start that reaches RUNNING. *)
Definition Start_events (quorum actual : QuorumPB) : list Event :=
  [EvLock config_lock_;
   EvConsensusStart quorum;
   EvSetQuorum actual;
   EvMetadataFlush OK;
   EvLock internal_state_lock_;
   EvWriteState RUNNING;
   EvUnlock internal_state_lock_;
   EvUnlock config_lock_].

(** The peer with another tablet and another state. *)
Definition with_tablet_state (t : Tablet) (s : TabletStatePB) (p : TabletPeer)
    : TabletPeer :=
  {| state_ := s; tablet_ := Some t; quorum_peer_ := quorum_peer_ p;
     log_ := log_ p; consensus_ := consensus_ p;
     prepare_executor_ := prepare_executor_ p;
     apply_executor_ := apply_executor_ p |}.

(** Phases in which a transaction holds its ordering lock. *)
Definition in_ordering (ph : Phase) : bool :=
  match ph with
  | HoldsOrderingLock | PrepareSubmitted | ReplicateSubmitted | Aborting => true
  | _ => false
  end.

(** Phases that come after the submission to the prepare pool. *)
Definition past_prepare (ph : Phase) : bool :=
  match ph with
  | PrepareSubmitted | ReplicateSubmitted | Aborting
  | OrderingLockReleased | Finished => true
  | _ => false
  end.

(** Phases that come after the admission to replicate. *)
Definition past_replicate (ph : Phase) : bool :=
  match ph with
  | ReplicateSubmitted | OrderingLockReleased | Finished => true
  | _ => false
  end.

(** What holds in every state that a schedule can reach when all
    transactions share the ordering lock [l]. *)
Record pipeline_inv (l : Lock) (s : Pipeline) : Prop := {
  inv_holder : forall t, in_ordering (phase s t) = true -> holder s l = Some t;
  inv_last : forall t, phase s t = PrepareSubmitted ->
                       exists q, prepare_queue s = q ++ [t];
  inv_queued : forall t, In t (prepare_queue s) ->
                         past_prepare (phase s t) = true;
  inv_logged : forall t, In t (replicate_log s) ->
                         past_replicate (phase s t) = true;
  inv_nodup : NoDup (prepare_queue s);
  inv_order : replicate_log s =
              filter (mem (replicate_log s)) (prepare_queue s)
}.

(** Three transactions as the Submit entry points of a RUNNING peer
    construct them, and two transactions that do not share their ordering
    lock. *)
Definition three_txs : list Transaction :=
  [write_tx (peer running_world) {| write_payload := 1 |};
   change_config_tx (peer running_world) {| config_payload := 2 |};
   alter_schema_tx (peer running_world) {| alter_payload := 3 |}].

Definition unrelated_txs : list Transaction :=
  [LeaderWriteTransaction {| write_payload := 1 |} None None None
     prepare_replicate_lock_;
   LeaderWriteTransaction {| write_payload := 2 |} None None None
     config_lock_].

(** Thread 1 (the configuration change) takes its configuration lock,
    thread 0 gets the ordering lock first and its replicate admission
    fails, thread 2 is admitted next, thread 1 last. *)
Definition schedule0 : list Action :=
  [Advance 1; Advance 0; Advance 0; Refuse 0; Advance 0; Advance 2; Advance 2;
   Advance 2; Advance 0; Advance 2; Advance 1; Advance 1; Advance 1;
   Advance 1; Advance 2; Advance 1].

Definition queues (o : option Pipeline) : list nat * list nat :=
  match o with
  | Some s => (prepare_queue s, replicate_log s)
  | None => ([], [])
  end.

(** The state in which [schedule0] ends. *)
Definition final0 : Pipeline :=
  match exec three_txs schedule0 initial with
  | Some s => s
  | None => initial
  end.

(** Unfolds the monad and the member functions down to the worlds. *)
Ltac peer_unfold :=
  unfold Init, Start, Shutdown, SubmitWrite, SubmitAlterSchema,
    SubmitChangeConfig, check_running, lock_guard, metadata_SetQuorum,
    metadata_Flush_call, tablet_SetConsensus_call, executor_Shutdown,
    new_transaction, Execute, DCHECK, CHECK, set_state, get_state,
    set_tablet, set_quorum_peer, set_log, set_consensus, get_peer, modify,
    emit, deref, abort, bind, ret in *.

Ltac trace_norm := repeat rewrite <- app_assoc; simpl app.

(** The events that a computation appends when it is started in [w]. *)
Definition events_of {A} (m : M A) (w : World) : list Event :=
  new_events w (world_of (m w)).

Definition holds (l : Lock) (held : list Lock) : bool :=
  existsb (lock_eqb l) held.

(** Releasing [l]: its most recent acquisition is dropped. *)
Fixpoint unlock (l : Lock) (held : list Lock) : list Lock :=
  match held with
  | [] => []
  | l' :: held' => if lock_eqb l l' then held' else l' :: unlock l held'
  end.

(** Each event of a trace together with the locks the peer holds when it
    happens (most recently acquired first). *)
Fixpoint annotate (held : list Lock) (tr : list Event)
    : list (list Lock * Event) :=
  match tr with
  | [] => []
  | e :: tr' =>
      (held, e) ::
      annotate (match e with
                | EvLock l => l :: held
                | EvUnlock l => unlock l held
                | _ => held
                end) tr'
  end.

(** The locks still held at the end of a trace, or [None] when the trace
    takes a lock it already holds or releases a lock other than the one
    it took last. *)
Fixpoint locks_after (held : list Lock) (tr : list Event)
    : option (list Lock) :=
  match tr with
  | [] => Some held
  | EvLock l :: tr' =>
      if holds l held then None else locks_after (l :: held) tr'
  | EvUnlock l :: tr' =>
      match held with
      | l' :: held' => if lock_eqb l l' then locks_after held' tr' else None
      | [] => None
      end
  | _ :: tr' => locks_after held tr'
  end.

Definition is_state_access (e : Event) : bool :=
  match e with
  | EvReadState _ | EvWriteState _ => true
  | _ => false
  end.

Definition is_lock (e : Event) : bool :=
  match e with EvLock _ => true | _ => false end.

Definition is_transaction_event (e : Event) : bool :=
  match e with
  | EvNewTransaction _ | EvExecute _ => true
  | _ => false
  end.

(** What Start does to bring the configuration up. *)
Definition is_config_bringup (e : Event) : bool :=
  match e with
  | EvConsensusStart _ | EvSetQuorum _ | EvMetadataFlush _
  | EvWriteState RUNNING => true
  | _ => false
  end.

(** [state_] is read and written only while the state lock is held. *)
Definition state_access_locked (tr : list Event) : bool :=
  forallb (fun p => implb (is_state_access (snd p))
                          (holds internal_state_lock_ (fst p)))
          (annotate [] tr).

(** While the state lock is held none of the peer's locks is taken: the
    state lock is the innermost guard. *)
Definition state_lock_is_innermost (tr : list Event) : bool :=
  forallb (fun p => implb (holds internal_state_lock_ (fst p))
                          (negb (is_lock (snd p))))
          (annotate [] tr).

(** Transactions are constructed and executed while no lock is held. *)
Definition transactions_unlocked (tr : list Event) : bool :=
  forallb (fun p => implb (is_transaction_event (snd p))
                          (match fst p with [] => true | _ => false end))
          (annotate [] tr).

(** The configuration is brought up only while the configuration lock is
    held. *)
Definition bringup_locked (tr : list Event) : bool :=
  forallb (fun p => implb (is_config_bringup (snd p))
                          (holds config_lock_ (fst p)))
          (annotate [] tr).

(** The lock [l] is never taken. *)
Definition never_locks (l : Lock) (tr : list Event) : bool :=
  forallb (fun e => match e with
                    | EvLock l' => negb (lock_eqb l' l)
                    | _ => true
                    end) tr.

(** The configuration that the tablet holds in memory. *)
Definition memory_quorum (w : World) : option QuorumPB :=
  match tablet_ (peer w) with
  | Some t => quorum (metadata t)
  | None => None
  end.

(** The consensus module that the tablet records its local changes
    with. *)
Definition wired_consensus (w : World) : option Consensus :=
  match tablet_ (peer w) with
  | Some t => tablet_consensus t
  | None => None
  end.

(** What every world reached from a constructed peer satisfies: once the
    state has left BOOTSTRAPPING a consensus module is attached, and a
    RUNNING peer has a durable configuration. *)
Definition lifecycle_inv (w : World) : Prop :=
  (state_ (peer w) <> BOOTSTRAPPING -> consensus_ (peer w) <> None) /\
  (state_ (peer w) = RUNNING -> durable_quorum w <> None).

(** The peer owns the pools [pe] and [ae]. *)
Definition owns_pools (pe ae : TaskExecutor) (w : World) : Prop :=
  prepare_executor_ (peer w) = Some pe /\ apply_executor_ (peer w) = Some ae.

(** Collaborators that fail wherever they can. *)
Definition env_init_fails : Collaborators :=
  {| consensus_Init := fun _ _ => Error kCorruption "bad log";
     consensus_Start := fun _ => (OK, Some quorum1);
     consensus_Shutdown := OK;
     metadata_Flush := OK;
     transaction_Execute := fun _ => Error kServiceUnavailable "queue full";
     dcheck_is_on := true;
     vlog_is_on := false |}.

(** A sequence of calls that exercises every entry point. *)
Definition calls0 : list Call :=
  [CallSubmitChangeConfig (env_ok true) {| config_payload := 3 |};
   CallInit env_init_fails (Some tablet0) peer_a (Some log0);
   CallInit (env_ok true) (Some tablet0) peer_a (Some log0);
   CallStart env_flush_fails quorum0;
   CallStart (env_ok true) quorum0;
   CallSubmitWrite (env_ok true) {| write_payload := 1 |};
   CallStart env_flush_fails quorum0;
   CallShutdown env_consensus_fails;
   CallSubmitAlterSchema env_init_fails {| alter_payload := 2 |}].

Definition is_Start (c : Call) : bool :=
  match c with CallStart _ _ => true | _ => false end.

Definition is_SubmitChangeConfig (c : Call) : bool :=
  match c with CallSubmitChangeConfig _ _ => true | _ => false end.

(** Reduces the entry points on a world given by its members. *)
Ltac peer_cbv :=
  cbv beta iota zeta delta
    [call Init Start Shutdown SubmitWrite SubmitAlterSchema
     SubmitChangeConfig check_running lock_guard metadata_SetQuorum
     metadata_Flush_call tablet_SetConsensus_call executor_Shutdown
     new_transaction Execute DCHECK CHECK set_state get_state
     set_tablet set_quorum_peer set_log set_consensus get_peer modify
     emit deref abort bind ret peer trace world_of returned is_some
     state_ tablet_ quorum_peer_ log_ consensus_ prepare_executor_
     apply_executor_ negb ok events_of state_eqb
     consensus_Init consensus_Start consensus_Shutdown metadata_Flush
     transaction_Execute dcheck_is_on vlog_is_on].

(** Case analysis over everything a call branches on. *)
Ltac split_call :=
  repeat (cbv beta iota zeta;
    match goal with
    | |- context [match ?x with _ => _ end] => is_var x; destruct x
    | |- context [match ?f ?a ?b with _ => _ end] => is_var f; destruct (f a b)
    | |- context [match ?f ?a with _ => _ end] => is_var f; destruct (f a)
    end).

(** Reduces the operations on the tablet and the views of a world. *)
Ltac tablet_cbv :=
  cbv beta iota zeta delta
    [Tablet_SetConsensus Tablet_SetQuorum Tablet_Flushed metadata
     tablet_consensus oid quorum flushed_quorum durable_quorum
     memory_quorum wired_consensus lifecycle_inv owns_pools].

(* ====================================================================== *)
(** ** Basic facts *)
(* ====================================================================== *)

Lemma state_eqb_eq (a b : TabletStatePB) : state_eqb a b = true <-> a = b.
Proof. destruct a, b; simpl; split; congruence. Qed.

Lemma state_eqb_neq (a b : TabletStatePB) : state_eqb a b = false <-> a <> b.
Proof. destruct a, b; simpl; split; congruence. Qed.

Lemma int_of_long_small (x : Z) :
  - 2 ^ 31 <= x < 2 ^ 31 -> int_of_long x = x.
Proof.
  intros H. unfold int_of_long.
  rewrite Z.mod_small by lia. lia.
Qed.

Lemma new_events_app (w : World) (p : TabletPeer) (evs : list Event) :
  new_events w {| peer := p; trace := trace w ++ evs |} = evs.
Proof.
  unfold new_events. simpl.
  rewrite skipn_app, skipn_all, Nat.sub_diag. reflexivity.
Qed.

Lemma Shutdown_returns (env : Collaborators) (w : World) (c : Consensus)
    (pe ae : TaskExecutor) :
  consensus_ (peer w) = Some c ->
  prepare_executor_ (peer w) = Some pe ->
  apply_executor_ (peer w) = Some ae ->
  (vlog_is_on env = true -> tablet_ (peer w) <> None) ->
  Shutdown env w =
  Returned OK {| peer := peer w;
                 trace := trace w ++ Shutdown_events env (peer w) pe ae |}.
Proof.
  intros Hc Hp Ha Ht. unfold Shutdown_events. peer_unfold.
  rewrite Hc, Hp, Ha. simpl.
  destruct (ok (consensus_Shutdown env)); simpl;
    destruct (vlog_is_on env); simpl;
    try (destruct (tablet_ (peer w)) as [t|]; [| exfalso; now apply Ht]);
    simpl; trace_norm; reflexivity.
Qed.

(** Whatever happens, Shutdown leaves every member of the peer as it
    was. *)
Lemma Shutdown_peer (env : Collaborators) (w : World) :
  peer (world_of (Shutdown env w)) = peer w.
Proof.
  peer_unfold.
  destruct (consensus_ (peer w)); simpl; [| reflexivity].
  destruct (ok (consensus_Shutdown env)); simpl;
    (destruct (prepare_executor_ (peer w)); simpl; [| reflexivity]);
    (destruct (apply_executor_ (peer w)); simpl; [| reflexivity]);
    (destruct (vlog_is_on env); simpl; [| reflexivity]);
    (destruct (tablet_ (peer w)); simpl; reflexivity).
Qed.

Lemma check_running_rejects (w : World) :
  state_ (peer w) <> RUNNING ->
  check_running w =
  Returned (Some (IllegalState "Tablet not in RUNNING state.")) (rejected w).
Proof.
  intros H. apply state_eqb_neq in H. unfold rejected. peer_unfold.
  simpl. rewrite H. simpl. trace_norm. reflexivity.
Qed.

Lemma check_running_accepts (w : World) :
  state_ (peer w) = RUNNING ->
  check_running w = Returned None (rejected w).
Proof.
  intros H. unfold rejected. peer_unfold.
  simpl. rewrite H. simpl. trace_norm. reflexivity.
Qed.

Lemma SubmitWrite_rejected env c w :
  state_ (peer w) <> RUNNING ->
  SubmitWrite env c w =
  Returned (IllegalState "Tablet not in RUNNING state.") (rejected w).
Proof.
  intros H. unfold SubmitWrite, bind at 1.
  rewrite (check_running_rejects w H). reflexivity.
Qed.

Lemma SubmitAlterSchema_rejected env c w :
  state_ (peer w) <> RUNNING ->
  SubmitAlterSchema env c w =
  Returned (IllegalState "Tablet not in RUNNING state.") (rejected w).
Proof.
  intros H. unfold SubmitAlterSchema, bind at 1.
  rewrite (check_running_rejects w H). reflexivity.
Qed.

Lemma SubmitWrite_accepted env c w :
  state_ (peer w) = RUNNING ->
  SubmitWrite env c w =
  Returned (transaction_Execute env (write_tx (peer w) c))
           (submitted (write_tx (peer w) c) (rejected w)).
Proof.
  intros H. unfold SubmitWrite, bind at 1.
  rewrite (check_running_accepts w H).
  unfold submitted, rejected, write_tx. peer_unfold. simpl.
  trace_norm. reflexivity.
Qed.

Lemma SubmitAlterSchema_accepted env c w :
  state_ (peer w) = RUNNING ->
  SubmitAlterSchema env c w =
  Returned (transaction_Execute env (alter_schema_tx (peer w) c))
           (submitted (alter_schema_tx (peer w) c) (rejected w)).
Proof.
  intros H. unfold SubmitAlterSchema, bind at 1.
  rewrite (check_running_accepts w H).
  unfold submitted, rejected, alter_schema_tx. peer_unfold. simpl.
  trace_norm. reflexivity.
Qed.

Lemma SubmitChangeConfig_always env c w :
  SubmitChangeConfig env c w =
  Returned (transaction_Execute env (change_config_tx (peer w) c))
           (submitted (change_config_tx (peer w) c) w).
Proof.
  unfold submitted, change_config_tx. peer_unfold. simpl.
  trace_norm. reflexivity.
Qed.

(* ====================================================================== *)
(** ** Submission while the peer is not RUNNING *)
(* ====================================================================== *)

(** C1, as stated, fails for configuration changes: on a peer that was
    only constructed (state BOOTSTRAPPING), SubmitChangeConfig returns OK
    after constructing and executing a transaction, and never touches the
    state lock. *)
Lemma SubmitChangeConfig_not_rejected :
  state_ (peer fresh_world) = BOOTSTRAPPING /\
  SubmitChangeConfig (env_ok true) {| config_payload := 1 |} fresh_world =
  Returned OK
    (submitted (change_config_tx (peer fresh_world) {| config_payload := 1 |})
       fresh_world) /\
  constructed_by (SubmitChangeConfig (env_ok true) {| config_payload := 1 |})
    fresh_world =
  [change_config_tx (peer fresh_world) {| config_payload := 1 |}] /\
  ~ In (EvLock internal_state_lock_)
       (new_events fresh_world
          (world_of (SubmitChangeConfig (env_ok true) {| config_payload := 1 |}
                       fresh_world))).
Proof.
  repeat split; try reflexivity.
  vm_compute. intros [H | [H | []]]; discriminate H.
Qed.

(** C1 (amended): SubmitWrite and SubmitAlterSchema, called while the
    state is not RUNNING, return the illegal-state error; the state is
    read between taking and releasing the state lock, nothing else
    happens, and no transaction is constructed.  SubmitChangeConfig has no
    such check: it constructs and executes its transaction in every
    state. *)
Theorem Submit_while_not_running (env : Collaborators) (w : World)
    (H : state_ (peer w) <> RUNNING) :
  (forall c,
      SubmitWrite env c w =
      Returned (IllegalState "Tablet not in RUNNING state.") (rejected w) /\
      constructed_by (SubmitWrite env c) w = []) /\
  (forall c,
      SubmitAlterSchema env c w =
      Returned (IllegalState "Tablet not in RUNNING state.") (rejected w) /\
      constructed_by (SubmitAlterSchema env c) w = []) /\
  (forall c,
      SubmitChangeConfig env c w =
      Returned (transaction_Execute env (change_config_tx (peer w) c))
               (submitted (change_config_tx (peer w) c) w) /\
      constructed_by (SubmitChangeConfig env c) w =
      [change_config_tx (peer w) c]).
Proof.
  repeat split.
  - apply SubmitWrite_rejected, H.
  - unfold constructed_by. rewrite (SubmitWrite_rejected env c w H).
    unfold rejected. simpl world_of. rewrite new_events_app. reflexivity.
  - apply SubmitAlterSchema_rejected, H.
  - unfold constructed_by. rewrite (SubmitAlterSchema_rejected env c w H).
    unfold rejected. simpl world_of. rewrite new_events_app. reflexivity.
  - apply SubmitChangeConfig_always.
  - unfold constructed_by. rewrite SubmitChangeConfig_always.
    unfold submitted. simpl world_of. rewrite new_events_app. reflexivity.
Qed.

Lemma Submit_while_not_running_witness :
  state_ (peer configuring_world) <> RUNNING /\
  SubmitWrite (env_ok true) {| write_payload := 5 |} configuring_world =
  Returned (IllegalState "Tablet not in RUNNING state.")
           (rejected configuring_world).
Proof.
  split.
  - vm_compute. discriminate.
  - apply (Submit_while_not_running (env_ok true) configuring_world).
    vm_compute. discriminate.
Defined.

(* ====================================================================== *)
(** ** Init *)
(* ====================================================================== *)

(** Init leaves the state at CONFIGURING however it ends. *)
Lemma Init_state env tablet qp log w :
  state_ (peer (world_of (Init env tablet qp log w))) = CONFIGURING.
Proof.
  peer_unfold. simpl.
  destruct (dcheck_is_on env); simpl.
  - destruct tablet as [t|]; simpl; [| reflexivity].
    destruct log as [l|]; simpl; [| reflexivity].
    destruct (ok (consensus_Init env qp (Some l))); reflexivity.
  - destruct (ok (consensus_Init env qp log)); simpl; [| reflexivity].
    destruct tablet as [t|]; reflexivity.
Qed.

(** C2, as stated, fails: on a freshly constructed peer, Init with a null
    log (debug build) aborts on the DCHECK, but by then the state is
    CONFIGURING and the tablet and the consensus object are attached. *)
Lemma Init_null_log_changes_state :
  state_ (peer fresh_world) = BOOTSTRAPPING /\
  Init (env_ok true) (Some tablet0) peer_a None fresh_world =
  Aborted "Check failed: A TabletPeer must be provided with a Log"
          (attached (Some tablet0) peer_a None fresh_world) /\
  state_ (peer (attached (Some tablet0) peer_a None fresh_world)) = CONFIGURING /\
  tablet_ (peer (attached (Some tablet0) peer_a None fresh_world)) = Some tablet0 /\
  consensus_ (peer (attached (Some tablet0) peer_a None fresh_world)) =
  Some (LocalConsensus Build_ConsensusOptions).
Proof. repeat split; reflexivity. Qed.

(** Without DCHECK (a release build) a null log is not detected at all:
    Init goes on to the consensus module and returns its status. *)
Example Init_null_log_release :
  Init (env_ok false) (Some tablet0) peer_a None fresh_world =
  Returned OK
    {| peer := {| state_ := CONFIGURING;
                  tablet_ := Some (Tablet_SetConsensus
                                     (Some (LocalConsensus Build_ConsensusOptions))
                                     tablet0);
                  quorum_peer_ := peer_a;
                  log_ := None;
                  consensus_ := Some (LocalConsensus Build_ConsensusOptions);
                  prepare_executor_ := prepare_executor_ (peer fresh_world);
                  apply_executor_ := apply_executor_ (peer fresh_world) |};
       trace := trace (attached (Some tablet0) peer_a None fresh_world) ++
                [EvConsensusInit peer_a None; EvSetConsensus] |}.
Proof. reflexivity. Qed.

(** C2 (amended): with DCHECK compiled in, Init called with a null tablet
    or a null log aborts with a failed check, after the guarded block has
    run: the state is CONFIGURING, the handles (the null one included) are
    stored and the consensus object is constructed; the consensus module's
    Init is not called. *)
Theorem Init_null_handle_aborts_after_attach (env : Collaborators)
    (tablet : option Tablet) (quorum_peer : QuorumPeerPB) (log : option Log)
    (w : World)
    (Hdebug : dcheck_is_on env = true)
    (Hnull : tablet = None \/ log = None) :
  exists why,
    Init env tablet quorum_peer log w =
    Aborted why (attached tablet quorum_peer log w).
Proof.
  unfold attached. peer_unfold. simpl. rewrite Hdebug. simpl.
  destruct tablet as [t|]; simpl.
  - destruct Hnull as [Hn | Hn]; [discriminate Hn |]. subst log. simpl.
    trace_norm. eexists. reflexivity.
  - trace_norm. eexists. reflexivity.
Qed.

Lemma Init_null_handle_aborts_after_attach_witness :
  exists why,
    Init (env_ok true) (Some tablet0) peer_a None fresh_world =
    Aborted why (attached (Some tablet0) peer_a None fresh_world).
Proof.
  apply (Init_null_handle_aborts_after_attach (env_ok true) (Some tablet0)
           peer_a None fresh_world).
  - reflexivity.
  - right. reflexivity.
Defined.

(* ====================================================================== *)
(** ** Start *)
(* ====================================================================== *)

(** Start either leaves [state_] alone or sets it to RUNNING. *)
Lemma Start_state env q w :
  state_ (peer (world_of (Start env q w))) = state_ (peer w) \/
  state_ (peer (world_of (Start env q w))) = RUNNING.
Proof.
  peer_unfold. simpl.
  destruct (consensus_ (peer w)); simpl; [| now left].
  destruct (consensus_Start env q) as [s cfg]; simpl.
  destruct (ok s); simpl; [| now left].
  destruct cfg as [cfg|]; simpl; [| now left].
  destruct (tablet_ (peer w)); simpl; [| now left].
  destruct (metadata_Flush env); simpl; [now right | now left].
Qed.

Lemma Start_consensus_fails env q w c s cfg :
  consensus_ (peer w) = Some c ->
  consensus_Start env q = (s, cfg) -> ok s = false ->
  Start env q w =
  Returned s {| peer := peer w;
                trace := trace w ++ [EvLock config_lock_;
                                     EvConsensusStart q;
                                     EvUnlock config_lock_] |}.
Proof.
  intros Hc Hs Hk. peer_unfold. simpl. rewrite Hc. simpl. rewrite Hs.
  rewrite Hk. simpl. trace_norm. reflexivity.
Qed.

Lemma Start_flush_fails env q w c t cfg :
  consensus_ (peer w) = Some c -> tablet_ (peer w) = Some t ->
  consensus_Start env q = (OK, Some cfg) -> ok (metadata_Flush env) = false ->
  Start env q w =
  Returned (metadata_Flush env)
    {| peer := with_tablet_state (Tablet_SetQuorum cfg t) (state_ (peer w)) (peer w);
       trace := trace w ++ [EvLock config_lock_;
                            EvConsensusStart q;
                            EvSetQuorum cfg;
                            EvMetadataFlush (metadata_Flush env);
                            EvUnlock config_lock_] |}.
Proof.
  intros Hc Ht Hs Hf. unfold with_tablet_state. peer_unfold. simpl.
  rewrite Hc. simpl. rewrite Hs. simpl. rewrite Ht. simpl.
  destruct (metadata_Flush env) as [|k m]; [discriminate Hf |].
  simpl. trace_norm. rewrite ?Hc, ?Ht. reflexivity.
Qed.

Lemma Start_succeeds env q w c t cfg :
  consensus_ (peer w) = Some c -> tablet_ (peer w) = Some t ->
  consensus_Start env q = (OK, Some cfg) -> metadata_Flush env = OK ->
  Start env q w =
  Returned OK
    {| peer := with_tablet_state (Tablet_Flushed (Tablet_SetQuorum cfg t))
                 RUNNING (peer w);
       trace := trace w ++ Start_events q cfg |}.
Proof.
  intros Hc Ht Hs Hf. unfold with_tablet_state, Start_events. peer_unfold.
  simpl. rewrite Hc. simpl. rewrite Hs. simpl. rewrite Ht. simpl.
  rewrite Hf. simpl. trace_norm. rewrite ?Hc, ?Ht. reflexivity.
Qed.

Lemma Start_null_config env q w c :
  consensus_ (peer w) = Some c ->
  consensus_Start env q = (OK, None) ->
  Start env q w =
  Aborted "null dereference: actual_config"
    {| peer := peer w;
       trace := trace w ++ [EvLock config_lock_; EvConsensusStart q] |}.
Proof.
  intros Hc Hs. peer_unfold. simpl. rewrite Hc. simpl. rewrite Hs.
  simpl. trace_norm. reflexivity.
Qed.

Lemma not_In_3 (e a b c : Event) :
  e <> a -> e <> b -> e <> c -> ~ In e [a; b; c].
Proof. intros Ha Hb Hc [H | [H | [H | []]]]; congruence. Qed.

(** C3: on a peer whose handles are attached, (1) a failure of the
    replication module's Start is returned and the state is unchanged;
    (2) a failure of the metadata flush is returned, the state is
    unchanged and the durable configuration is unchanged; (3) when both
    succeed, Start returns OK, the effective configuration is durable and
    the state is RUNNING, and the state was written after the flush;
    (4) in every case, if Start wrote RUNNING then the replication
    module's Start and the flush both succeeded. *)
Theorem Start_running_only_after_flush (env : Collaborators) (q : QuorumPB)
    (w : World) (c : Consensus) (t : Tablet)
    (Hc : consensus_ (peer w) = Some c)
    (Ht : tablet_ (peer w) = Some t) :
  (forall s cfg,
      consensus_Start env q = (s, cfg) -> ok s = false ->
      returned (Start env q w) = Some s /\
      state_ (peer (world_of (Start env q w))) = state_ (peer w) /\
      durable_quorum (world_of (Start env q w)) = durable_quorum w) /\
  (forall cfg,
      consensus_Start env q = (OK, Some cfg) -> ok (metadata_Flush env) = false ->
      returned (Start env q w) = Some (metadata_Flush env) /\
      state_ (peer (world_of (Start env q w))) = state_ (peer w) /\
      durable_quorum (world_of (Start env q w)) = durable_quorum w) /\
  (forall cfg,
      consensus_Start env q = (OK, Some cfg) -> metadata_Flush env = OK ->
      returned (Start env q w) = Some OK /\
      state_ (peer (world_of (Start env q w))) = RUNNING /\
      durable_quorum (world_of (Start env q w)) = Some cfg /\
      new_events w (world_of (Start env q w)) = Start_events q cfg) /\
  (In (EvWriteState RUNNING) (new_events w (world_of (Start env q w))) ->
   exists cfg,
     consensus_Start env q = (OK, Some cfg) /\ metadata_Flush env = OK /\
     durable_quorum (world_of (Start env q w)) = Some cfg).
Proof.
  unfold durable_quorum. repeat split.
  - rewrite (Start_consensus_fails env q w c s cfg Hc H H0). reflexivity.
  - rewrite (Start_consensus_fails env q w c s cfg Hc H H0). reflexivity.
  - rewrite (Start_consensus_fails env q w c s cfg Hc H H0). reflexivity.
  - rewrite (Start_flush_fails env q w c t cfg Hc Ht H H0). reflexivity.
  - rewrite (Start_flush_fails env q w c t cfg Hc Ht H H0). reflexivity.
  - rewrite (Start_flush_fails env q w c t cfg Hc Ht H H0). simpl.
    rewrite Ht. reflexivity.
  - rewrite (Start_succeeds env q w c t cfg Hc Ht H H0). reflexivity.
  - rewrite (Start_succeeds env q w c t cfg Hc Ht H H0). reflexivity.
  - rewrite (Start_succeeds env q w c t cfg Hc Ht H H0). reflexivity.
  - rewrite (Start_succeeds env q w c t cfg Hc Ht H H0). simpl world_of.
    apply new_events_app.
  - destruct (consensus_Start env q) as [s [cfg|]] eqn:Es.
    + destruct s as [|k m].
      * destruct (metadata_Flush env) as [|k m] eqn:Ef.
        -- intros _. exists cfg.
           rewrite (Start_succeeds env q w c t cfg Hc Ht Es Ef). simpl.
           repeat split.
        -- assert (Hk : ok (metadata_Flush env) = false)
             by (rewrite Ef; reflexivity).
           rewrite (Start_flush_fails env q w c t cfg Hc Ht Es Hk).
           simpl world_of. rewrite new_events_app.
           intros [H | [H | [H | [H | [H | []]]]]]; discriminate H.
      * rewrite (Start_consensus_fails env q w c _ _ Hc Es eq_refl).
        simpl world_of. rewrite new_events_app.
        intros H. exfalso. revert H. apply not_In_3; discriminate.
    + destruct s as [|k m].
      * rewrite (Start_null_config env q w c Hc Es).
        simpl world_of. rewrite new_events_app.
        intros [H | [H | []]]; discriminate H.
      * rewrite (Start_consensus_fails env q w c _ _ Hc Es eq_refl).
        simpl world_of. rewrite new_events_app.
        intros H. exfalso. revert H. apply not_In_3; discriminate.
Qed.

Lemma Start_running_only_after_flush_witness :
  returned (Start env_flush_fails quorum0 configuring_world) =
    Some (Error kIOError "disk full") /\
  state_ (peer (world_of (Start env_flush_fails quorum0 configuring_world))) =
    CONFIGURING /\
  returned (Start (env_ok true) quorum0 configuring_world) = Some OK /\
  state_ (peer (world_of (Start (env_ok true) quorum0 configuring_world))) =
    RUNNING /\
  durable_quorum (world_of (Start (env_ok true) quorum0 configuring_world)) =
    Some quorum1.
Proof.
  pose proof (Start_running_only_after_flush env_flush_fails quorum0
                configuring_world (LocalConsensus Build_ConsensusOptions)
                (Tablet_SetConsensus
                   (Some (LocalConsensus Build_ConsensusOptions)) tablet0)
                eq_refl eq_refl) as (_ & Hflush & _ & _).
  pose proof (Start_running_only_after_flush (env_ok true) quorum0
                configuring_world (LocalConsensus Build_ConsensusOptions)
                (Tablet_SetConsensus
                   (Some (LocalConsensus Build_ConsensusOptions)) tablet0)
                eq_refl eq_refl) as (_ & _ & Hok & _).
  destruct (Hflush quorum1 eq_refl eq_refl) as (Hr & Hs & _).
  destruct (Hok quorum1 eq_refl eq_refl) as (Hr' & Hs' & Hd & _).
  repeat split; assumption.
Defined.

(* ====================================================================== *)
(** ** Shutdown *)
(* ====================================================================== *)

(** C4, as stated, fails: Shutdown does not always reach the pools.  On
    a peer that was only constructed, [consensus_] is still null; Shutdown
    dereferences it in its first statement and ends there: neither pool
    sees a Shutdown call and nothing is returned. *)
Lemma Shutdown_before_Init_aborts :
  consensus_ (peer fresh_world) = None /\
  Shutdown (env_ok true) fresh_world =
  Aborted "null dereference: consensus_" fresh_world /\
  returned (Shutdown (env_ok true) fresh_world) = None /\
  releases (is_shutdown_of (TaskExecutor_CreateNew "prepare exec" 1))
           (new_events fresh_world
              (world_of (Shutdown (env_ok true) fresh_world))) = 0%nat /\
  releases (is_shutdown_of (TaskExecutor_CreateNew "apply exec" 4))
           (new_events fresh_world
              (world_of (Shutdown (env_ok true) fresh_world))) = 0%nat.
Proof. repeat split; vm_compute; reflexivity. Qed.

(** C4 (amended): on a peer whose handles are attached (the consensus
    object, the tablet and the two pools), Shutdown returns OK whatever
    the replication module answered, leaves the peer as it was, and does
    exactly this, in this order: Shutdown of the replication module; a
    warning in the log if and only if that call reported an error;
    Shutdown of the prepare pool; Shutdown of the apply pool; and, when
    VLOG(1) is on, the verbose log line with the tablet's id. *)
Theorem Shutdown_order (env : Collaborators) (w : World) (c : Consensus)
    (pe ae : TaskExecutor) (t : Tablet)
    (Hc : consensus_ (peer w) = Some c)
    (Hp : prepare_executor_ (peer w) = Some pe)
    (Ha : apply_executor_ (peer w) = Some ae)
    (Ht : tablet_ (peer w) = Some t) :
  Shutdown env w =
  Returned OK
    {| peer := peer w;
       trace := trace w ++
                [EvConsensusShutdown] ++
                (if ok (consensus_Shutdown env) then []
                 else [EvLogWarning "Consensus shutdown failed"]) ++
                [EvExecutorShutdown pe; EvExecutorShutdown ae] ++
                (if vlog_is_on env then [EvVLog (oid (metadata t))] else []) |}.
Proof.
  assert (Hv : vlog_is_on env = true -> tablet_ (peer w) <> None)
    by (intros _; rewrite Ht; discriminate).
  rewrite (Shutdown_returns env w c pe ae Hc Hp Ha Hv).
  unfold Shutdown_events. rewrite Ht. reflexivity.
Qed.

Lemma Shutdown_order_witness :
  Shutdown env_consensus_fails running_world =
  Returned OK
    {| peer := peer running_world;
       trace := trace running_world ++
                [EvConsensusShutdown;
                 EvLogWarning "Consensus shutdown failed";
                 EvExecutorShutdown (TaskExecutor_CreateNew "prepare exec" 1);
                 EvExecutorShutdown (TaskExecutor_CreateNew "apply exec" 4);
                 EvVLog "tablet-0"] |}.
Proof.
  apply (Shutdown_order env_consensus_fails running_world
           (LocalConsensus Build_ConsensusOptions)
           (TaskExecutor_CreateNew "prepare exec" 1)
           (TaskExecutor_CreateNew "apply exec" 4)
           (Tablet_Flushed
              (Tablet_SetQuorum quorum1
                 (Tablet_SetConsensus
                    (Some (LocalConsensus Build_ConsensusOptions)) tablet0)))
           eq_refl eq_refl eq_refl eq_refl).
Defined.

(** C5, as stated, fails: a RUNNING peer is still RUNNING after a
    successful Shutdown. *)
Lemma Shutdown_state_not_SHUTDOWN :
  returned (Shutdown (env_ok true) running_world) = Some OK /\
  state_ (peer (world_of (Shutdown (env_ok true) running_world))) = RUNNING /\
  state_ (peer (world_of (Shutdown (env_ok true) running_world))) <> SHUTDOWN.
Proof.
  split; [reflexivity |]. split; [reflexivity |].
  vm_compute. discriminate.
Qed.

(** C5 (amended): Shutdown never assigns the lifecycle state; after
    Shutdown the state, like every other member of the peer, is what it
    was before the call. *)
Theorem Shutdown_keeps_state (env : Collaborators) (w : World) :
  state_ (peer (world_of (Shutdown env w))) = state_ (peer w) /\
  peer (world_of (Shutdown env w)) = peer w.
Proof.
  rewrite Shutdown_peer. split; reflexivity.
Qed.

(** C8, as stated, fails: a second Shutdown does return OK, but it
    releases everything a second time: the replication module and both
    pools each see two Shutdown calls. *)
Lemma second_Shutdown_releases_again :
  let w1 := world_of (Shutdown (env_ok true) running_world) in
  let w2 := world_of (Shutdown (env_ok true) w1) in
  returned (Shutdown (env_ok true) running_world) = Some OK /\
  returned (Shutdown (env_ok true) w1) = Some OK /\
  releases is_consensus_shutdown (new_events running_world w2) = 2%nat /\
  releases (is_shutdown_of (TaskExecutor_CreateNew "prepare exec" 1))
           (new_events running_world w2) = 2%nat /\
  releases (is_shutdown_of (TaskExecutor_CreateNew "apply exec" 4))
           (new_events running_world w2) = 2%nat.
Proof. repeat split; reflexivity. Qed.

(** C8 (amended): on a peer whose handles are attached, a second Shutdown
    returns OK like the first, and it repeats the same calls: Shutdown of
    the replication module, of the prepare pool and of the apply pool.
    The peer has no guard of its own against releasing twice. *)
Theorem Shutdown_twice (env1 env2 : Collaborators) (w : World) (c : Consensus)
    (pe ae : TaskExecutor) (t : Tablet)
    (Hc : consensus_ (peer w) = Some c)
    (Hp : prepare_executor_ (peer w) = Some pe)
    (Ha : apply_executor_ (peer w) = Some ae)
    (Ht : tablet_ (peer w) = Some t) :
  let w1 := world_of (Shutdown env1 w) in
  returned (Shutdown env1 w) = Some OK /\
  Shutdown env2 w1 =
  Returned OK {| peer := peer w;
                 trace := trace w1 ++ Shutdown_events env2 (peer w) pe ae |} /\
  releases is_consensus_shutdown (Shutdown_events env2 (peer w) pe ae) = 1%nat /\
  In (EvExecutorShutdown pe) (Shutdown_events env2 (peer w) pe ae) /\
  In (EvExecutorShutdown ae) (Shutdown_events env2 (peer w) pe ae).
Proof.
  assert (Hv : forall env, vlog_is_on env = true -> tablet_ (peer w) <> None)
    by (intros env _; rewrite Ht; discriminate).
  simpl. rewrite (Shutdown_returns env1 w c pe ae Hc Hp Ha (Hv env1)).
  split; [reflexivity |]. simpl world_of.
  split.
  - rewrite (Shutdown_returns env2 _ c pe ae); simpl; auto. apply Hv.
  - unfold Shutdown_events, releases. rewrite Ht.
    destruct (ok (consensus_Shutdown env2)), (vlog_is_on env2); simpl; auto 10.
Qed.

Lemma Shutdown_twice_witness :
  Shutdown env_consensus_fails (world_of (Shutdown (env_ok true) running_world)) =
  Returned OK
    {| peer := peer running_world;
       trace := trace (world_of (Shutdown (env_ok true) running_world)) ++
                Shutdown_events env_consensus_fails (peer running_world)
                  (TaskExecutor_CreateNew "prepare exec" 1)
                  (TaskExecutor_CreateNew "apply exec" 4) |}.
Proof.
  apply (Shutdown_twice (env_ok true) env_consensus_fails running_world
           (LocalConsensus Build_ConsensusOptions)
           (TaskExecutor_CreateNew "prepare exec" 1)
           (TaskExecutor_CreateNew "apply exec" 4)
           (Tablet_Flushed
              (Tablet_SetQuorum quorum1
                 (Tablet_SetConsensus
                    (Some (LocalConsensus Build_ConsensusOptions)) tablet0)))
           eq_refl eq_refl eq_refl eq_refl).
Defined.

(* ====================================================================== *)
(** ** The lifecycle over sequences of calls *)
(* ====================================================================== *)

Lemma SubmitWrite_peer env c w :
  peer (world_of (SubmitWrite env c w)) = peer w.
Proof.
  destruct (state_eqb (state_ (peer w)) RUNNING) eqn:E.
  - apply state_eqb_eq in E. rewrite (SubmitWrite_accepted env c w E). reflexivity.
  - apply state_eqb_neq in E. rewrite (SubmitWrite_rejected env c w E). reflexivity.
Qed.

Lemma SubmitAlterSchema_peer env c w :
  peer (world_of (SubmitAlterSchema env c w)) = peer w.
Proof.
  destruct (state_eqb (state_ (peer w)) RUNNING) eqn:E.
  - apply state_eqb_eq in E.
    rewrite (SubmitAlterSchema_accepted env c w E). reflexivity.
  - apply state_eqb_neq in E.
    rewrite (SubmitAlterSchema_rejected env c w E). reflexivity.
Qed.

Lemma SubmitChangeConfig_peer env c w :
  peer (world_of (SubmitChangeConfig env c w)) = peer w.
Proof. rewrite SubmitChangeConfig_always. reflexivity. Qed.

(** What one call can do to the state: Init sets CONFIGURING, Start sets
    RUNNING or nothing, every other call nothing. *)
Lemma call_state (c : Call) (w : World) :
  let s' := state_ (peer (world_of (call c w))) in
  (is_Init c = true /\ s' = CONFIGURING) \/
  (is_Init c = false /\ (s' = state_ (peer w) \/ s' = RUNNING)).
Proof.
  destruct c as [env tb qp lg | env q | env | env x | env x | env x];
    cbv beta iota zeta delta [call is_Init].
  - left. split; [reflexivity | apply Init_state].
  - right. split; [reflexivity | apply Start_state].
  - right. split; [reflexivity |]. left. now rewrite Shutdown_peer.
  - right. split; [reflexivity |]. left. now rewrite SubmitWrite_peer.
  - right. split; [reflexivity |]. left. now rewrite SubmitAlterSchema_peer.
  - right. split; [reflexivity |]. left. now rewrite SubmitChangeConfig_peer.
Qed.

Lemma call_monotone (c : Call) (w : World) :
  state_ (peer w) <> SHUTDOWN ->
  is_Init c && state_eqb (state_ (peer w)) RUNNING = false ->
  (rank (state_ (peer w)) <= rank (state_ (peer (world_of (call c w)))))%nat /\
  state_ (peer (world_of (call c w))) <> SHUTDOWN.
Proof.
  intros Hs Hg.
  destruct (call_state c w) as [[Hi E] | [Hi [E | E]]]; rewrite E.
  - rewrite Hi in Hg. simpl in Hg.
    destruct (state_ (peer w)); simpl in *; try discriminate;
      try congruence; split; try lia; discriminate.
  - split; [lia | exact Hs].
  - destruct (state_ (peer w)); simpl; try congruence; split; try lia;
      discriminate.
Qed.

(** C6, as stated, fails: Init after a successful Start moves the RUNNING
    peer back to CONFIGURING. *)
Lemma Init_after_Start_goes_back :
  map (fun w => state_ (peer w))
      (run [CallInit (env_ok true) (Some tablet0) peer_a (Some log0);
            CallStart (env_ok true) quorum0;
            CallInit (env_ok true) (Some tablet0) peer_a (Some log0)]
           fresh_world) =
  [CONFIGURING; RUNNING; CONFIGURING] /\
  nondecreasing
    (map (fun w => rank (state_ (peer w)))
       (fresh_world ::
        run [CallInit (env_ok true) (Some tablet0) peer_a (Some log0);
             CallStart (env_ok true) quorum0;
             CallInit (env_ok true) (Some tablet0) peer_a (Some log0)]
            fresh_world)) = false.
Proof. split; reflexivity. Qed.

(** C6 (amended): along every sequence of calls of the entry points in
    which Init is never called on a RUNNING peer, the state only moves
    forward on the line BOOTSTRAPPING, CONFIGURING, RUNNING, and it never
    becomes SHUTDOWN: no entry point, Shutdown included, assigns that
    value. *)
Theorem lifecycle_monotone (cs : list Call) (w : World)
    (Hs : state_ (peer w) <> SHUTDOWN)
    (Hg : no_Init_while_running cs w = true) :
  nondecreasing (map (fun x => rank (state_ (peer x))) (w :: run cs w)) = true /\
  Forall (fun x => state_ (peer x) <> SHUTDOWN) (run cs w).
Proof.
  revert w Hs Hg.
  induction cs as [| c cs IH]; intros w Hs Hg.
  - split; [reflexivity | constructor].
  - simpl in Hg. apply andb_true_iff in Hg. destruct Hg as [Hc Hrest].
    apply negb_true_iff in Hc.
    destruct (call_monotone c w Hs Hc) as [Hle Hns].
    simpl run. destruct (call c w) as [r w' | why w'] eqn:E; simpl in Hle, Hns.
    + destruct (IH w' Hns Hrest) as [Hmono Hall].
      split.
      * change (Nat.leb (rank (state_ (peer w))) (rank (state_ (peer w'))) &&
                nondecreasing
                  (map (fun x => rank (state_ (peer x))) (w' :: run cs w')) = true).
        rewrite Hmono, andb_true_r. now apply Nat.leb_le.
      * constructor; assumption.
    + split.
      * simpl. rewrite andb_true_r. now apply Nat.leb_le.
      * constructor; [assumption | constructor].
Qed.

Lemma lifecycle_monotone_witness :
  nondecreasing
    (map (fun x => rank (state_ (peer x)))
       (fresh_world ::
        run [CallSubmitChangeConfig (env_ok true) {| config_payload := 3 |};
             CallInit (env_ok true) (Some tablet0) peer_a (Some log0);
             CallStart env_flush_fails quorum0;
             CallInit (env_ok true) (Some tablet0) peer_a (Some log0);
             CallStart (env_ok true) quorum0;
             CallSubmitWrite (env_ok true) {| write_payload := 1 |};
             CallShutdown env_consensus_fails;
             CallSubmitAlterSchema (env_ok true) {| alter_payload := 2 |}]
            fresh_world)) = true.
Proof.
  apply (lifecycle_monotone
           [CallSubmitChangeConfig (env_ok true) {| config_payload := 3 |};
            CallInit (env_ok true) (Some tablet0) peer_a (Some log0);
            CallStart env_flush_fails quorum0;
            CallInit (env_ok true) (Some tablet0) peer_a (Some log0);
            CallStart (env_ok true) quorum0;
            CallSubmitWrite (env_ok true) {| write_payload := 1 |};
            CallShutdown env_consensus_fails;
            CallSubmitAlterSchema (env_ok true) {| alter_payload := 2 |}]
           fresh_world).
  - vm_compute. discriminate.
  - vm_compute. reflexivity.
Defined.

(* ====================================================================== *)
(** ** The constructor *)
(* ====================================================================== *)

(** C7: when [sysconf] succeeds with a positive count [n] (that fits an
    [int]), the constructor builds the prepare pool with one thread and
    the apply pool with [n] threads and leaves the state at BOOTSTRAPPING;
    when [errno] is set or the count is not positive, construction ends
    in a failed CHECK: there is no peer and no pool with a fallback
    size. *)
Theorem constructor_pools (errno n : Z)
    (Hn : - 2 ^ 31 <= n < 2 ^ 31) :
  (errno = 0 /\ 0 < n ->
   exists w,
     TabletPeer_new errno n = NewPeer w /\
     prepare_executor_ (peer w) = Some (TaskExecutor_CreateNew "prepare exec" 1) /\
     apply_executor_ (peer w) = Some (TaskExecutor_CreateNew "apply exec" n) /\
     state_ (peer w) = BOOTSTRAPPING) /\
  (errno <> 0 \/ n <= 0 ->
   exists why,
     TabletPeer_new errno n =
     CheckFailed why [EvExecutorCreate (TaskExecutor_CreateNew "prepare exec" 1)]).
Proof.
  unfold TabletPeer_new. rewrite (int_of_long_small n Hn).
  split.
  - intros [He Hp]. subst errno. simpl.
    destruct (Z.gtb_spec n 0) as [_ | Hle]; [| lia]. simpl.
    eexists. repeat split.
  - intros H. destruct (Z.eqb_spec errno 0) as [He | He]; simpl.
    + destruct (Z.gtb_spec n 0) as [Hgt | _]; simpl; [lia |].
      eexists. reflexivity.
    + eexists. reflexivity.
Qed.

Lemma constructor_pools_witness :
  (exists w,
     TabletPeer_new 0 4 = NewPeer w /\
     prepare_executor_ (peer w) = Some (TaskExecutor_CreateNew "prepare exec" 1) /\
     apply_executor_ (peer w) = Some (TaskExecutor_CreateNew "apply exec" 4) /\
     state_ (peer w) = BOOTSTRAPPING) /\
  (exists why,
     TabletPeer_new 0 (-1) =
     CheckFailed why [EvExecutorCreate (TaskExecutor_CreateNew "prepare exec" 1)]).
Proof.
  split.
  - apply (constructor_pools 0 4); lia.
  - apply (constructor_pools 0 (-1)); lia.
Defined.

(* ====================================================================== *)
(** ** What the transactions are constructed with *)
(* ====================================================================== *)

(** C10: on a RUNNING peer each of the three Submit entry points
    constructs exactly one transaction; all three carry the peer's
    consensus handle, prepare executor, apply executor and the one
    ordering lock [prepare_replicate_lock_], so they form a single
    ordering domain; only the configuration change also carries the
    configuration lock. *)
Theorem Submit_shares_handles (env : Collaborators) (w : World)
    (cw : WriteTransactionContext) (ca : AlterSchemaTransactionContext)
    (cc : ChangeConfigTransactionContext)
    (H : state_ (peer w) = RUNNING) :
  exists tw ta tc,
    constructed_by (SubmitWrite env cw) w = [tw] /\
    constructed_by (SubmitAlterSchema env ca) w = [ta] /\
    constructed_by (SubmitChangeConfig env cc) w = [tc] /\
    Forall (fun t =>
              tx_consensus t = consensus_ (peer w) /\
              tx_prepare_executor t = prepare_executor_ (peer w) /\
              tx_apply_executor t = apply_executor_ (peer w) /\
              tx_prepare_replicate_lock t = prepare_replicate_lock_)
           [tw; ta; tc] /\
    tx_config_lock tw = None /\
    tx_config_lock ta = None /\
    tx_config_lock tc = Some config_lock_ /\
    ordering_domain prepare_replicate_lock_ [tw; ta; tc].
Proof.
  exists (write_tx (peer w) cw), (alter_schema_tx (peer w) ca),
         (change_config_tx (peer w) cc).
  unfold constructed_by.
  rewrite (SubmitWrite_accepted env cw w H),
          (SubmitAlterSchema_accepted env ca w H),
          SubmitChangeConfig_always.
  unfold submitted, rejected. simpl world_of. trace_norm.
  rewrite !new_events_app.
  repeat split; simpl; try reflexivity.
  - repeat constructor.
  - unfold ordering_domain. repeat constructor; simpl; discriminate.
Qed.

Lemma Submit_shares_handles_witness :
  exists tw ta tc,
    constructed_by (SubmitWrite (env_ok true) {| write_payload := 1 |})
      running_world = [tw] /\
    constructed_by (SubmitAlterSchema (env_ok true) {| alter_payload := 2 |})
      running_world = [ta] /\
    constructed_by (SubmitChangeConfig (env_ok true) {| config_payload := 3 |})
      running_world = [tc] /\
    Forall (fun t =>
              tx_consensus t = consensus_ (peer running_world) /\
              tx_prepare_executor t = prepare_executor_ (peer running_world) /\
              tx_apply_executor t = apply_executor_ (peer running_world) /\
              tx_prepare_replicate_lock t = prepare_replicate_lock_)
           [tw; ta; tc] /\
    tx_config_lock tw = None /\
    tx_config_lock ta = None /\
    tx_config_lock tc = Some config_lock_ /\
    ordering_domain prepare_replicate_lock_ [tw; ta; tc].
Proof.
  apply (Submit_shares_handles (env_ok true) running_world).
  reflexivity.
Defined.

(* ====================================================================== *)
(** ** Ordering of replicate admissions *)
(* ====================================================================== *)

Lemma lock_eqb_eq (a b : Lock) : lock_eqb a b = true <-> a = b.
Proof. destruct a, b; simpl; split; congruence. Qed.

Lemma set_phase_same t ph f : set_phase t ph f t = ph.
Proof. unfold set_phase. now rewrite Nat.eqb_refl. Qed.

Lemma set_phase_other t t' ph f : t' <> t -> set_phase t ph f t' = f t'.
Proof.
  intros H. unfold set_phase.
  destruct (Nat.eqb_spec t' t); [contradiction | reflexivity].
Qed.

Lemma set_holder_same l h f : set_holder l h f l = h.
Proof. unfold set_holder. destruct l; reflexivity. Qed.

Lemma set_holder_other l l' h f : l' <> l -> set_holder l h f l' = f l'.
Proof.
  intros H. unfold set_holder.
  destruct (lock_eqb l' l) eqn:E; [| reflexivity].
  apply lock_eqb_eq in E. contradiction.
Qed.

Lemma mem_In (l : list nat) (t : nat) : mem l t = true <-> In t l.
Proof.
  unfold mem. rewrite existsb_exists. split.
  - intros (x & Hx & E). apply Nat.eqb_eq in E. now subst.
  - intros H. exists t. split; [assumption | apply Nat.eqb_refl].
Qed.

Lemma mem_not_In (l : list nat) (t : nat) : ~ In t l -> mem l t = false.
Proof.
  intros H. destruct (mem l t) eqn:E; [| reflexivity].
  apply mem_In in E. contradiction.
Qed.

Lemma initial_inv (l : Lock) : pipeline_inv l initial.
Proof.
  constructor; simpl; try discriminate; try contradiction.
  - constructor.
  - reflexivity.
Qed.

(** A step of thread [t] that touches neither list. *)
Lemma move_inv (l : Lock) (s : Pipeline) (t : nat) (ph : Phase)
    (h' : Lock -> option nat) :
  pipeline_inv l s ->
  (past_prepare (phase s t) = true -> past_prepare ph = true) ->
  (past_replicate (phase s t) = true -> past_replicate ph = true) ->
  ph <> PrepareSubmitted ->
  (in_ordering ph = true -> h' l = Some t) ->
  (forall t', t' <> t -> in_ordering (phase s t') = true -> h' l = Some t') ->
  pipeline_inv l {| phase := set_phase t ph (phase s);
                    holder := h';
                    prepare_queue := prepare_queue s;
                    replicate_log := replicate_log s |}.
Proof.
  intros [Ih Il Iq Ig Ind Io] Hq Hg Hp Ht Hothers.
  constructor; simpl.
  - intros t'. destruct (Nat.eq_dec t' t) as [-> | Hne].
    + rewrite set_phase_same. exact Ht.
    + rewrite set_phase_other by assumption. now apply Hothers.
  - intros t'. destruct (Nat.eq_dec t' t) as [-> | Hne].
    + rewrite set_phase_same. intros E. contradiction.
    + rewrite set_phase_other by assumption. apply Il.
  - intros t' Hin. destruct (Nat.eq_dec t' t) as [-> | Hne].
    + rewrite set_phase_same. apply Hq, Iq, Hin.
    + rewrite set_phase_other by assumption. now apply Iq.
  - intros t' Hin. destruct (Nat.eq_dec t' t) as [-> | Hne].
    + rewrite set_phase_same. apply Hg, Ig, Hin.
    + rewrite set_phase_other by assumption. now apply Ig.
  - exact Ind.
  - exact Io.
Qed.

(** Submission of thread [t] to the prepare pool. *)
Lemma submit_prepare_inv (l : Lock) (s : Pipeline) (t : nat) :
  pipeline_inv l s ->
  phase s t = HoldsOrderingLock ->
  pipeline_inv l {| phase := set_phase t PrepareSubmitted (phase s);
                    holder := holder s;
                    prepare_queue := prepare_queue s ++ [t];
                    replicate_log := replicate_log s |}.
Proof.
  intros [Ih Il Iq Ig Ind Io] Hph.
  assert (Hheld : holder s l = Some t) by (apply Ih; now rewrite Hph).
  assert (Hnq : ~ In t (prepare_queue s)).
  { intros Hin. apply Iq in Hin. rewrite Hph in Hin. discriminate. }
  assert (Hnl : ~ In t (replicate_log s)).
  { intros Hin. apply Ig in Hin. rewrite Hph in Hin. discriminate. }
  constructor; simpl.
  - intros t'. destruct (Nat.eq_dec t' t) as [-> | Hne].
    + intros _. exact Hheld.
    + rewrite set_phase_other by assumption. apply Ih.
  - intros t'. destruct (Nat.eq_dec t' t) as [-> | Hne].
    + intros _. now exists (prepare_queue s).
    + rewrite set_phase_other by assumption. intros E.
      assert (Hh : holder s l = Some t') by (apply Ih; now rewrite E).
      congruence.
  - intros t' Hin. destruct (Nat.eq_dec t' t) as [-> | Hne].
    + now rewrite set_phase_same.
    + rewrite set_phase_other by assumption. apply Iq.
      apply in_app_or in Hin. destruct Hin as [Hin | [E | []]]; [assumption |].
      now subst.
  - intros t' Hin. destruct (Nat.eq_dec t' t) as [-> | Hne].
    + contradiction.
    + rewrite set_phase_other by assumption. now apply Ig.
  - apply NoDup_app.
    + exact Ind.
    + constructor; [intros [] | constructor].
    + intros x Hx [E | []]. subst x. contradiction.
  - rewrite filter_app. simpl. rewrite (mem_not_In _ _ Hnl).
    rewrite app_nil_r. exact Io.
Qed.

(** Admission of thread [t] to replicate. *)
Lemma submit_replicate_inv (l : Lock) (s : Pipeline) (t : nat) :
  pipeline_inv l s ->
  phase s t = PrepareSubmitted ->
  pipeline_inv l {| phase := set_phase t ReplicateSubmitted (phase s);
                    holder := holder s;
                    prepare_queue := prepare_queue s;
                    replicate_log := replicate_log s ++ [t] |}.
Proof.
  intros [Ih Il Iq Ig Ind Io] Hph.
  assert (Hheld : holder s l = Some t) by (apply Ih; now rewrite Hph).
  assert (Hnl : ~ In t (replicate_log s)).
  { intros Hin. apply Ig in Hin. rewrite Hph in Hin. discriminate. }
  destruct (Il t Hph) as [q Hq].
  assert (Hnq : ~ In t q).
  { rewrite Hq in Ind. apply NoDup_remove in Ind. destruct Ind as [_ Hd].
    rewrite app_nil_r in Hd. exact Hd. }
  constructor; simpl.
  - intros t'. destruct (Nat.eq_dec t' t) as [-> | Hne].
    + intros _. exact Hheld.
    + rewrite set_phase_other by assumption. apply Ih.
  - intros t'. destruct (Nat.eq_dec t' t) as [-> | Hne].
    + rewrite set_phase_same. discriminate.
    + rewrite set_phase_other by assumption. apply Il.
  - intros t' Hin. destruct (Nat.eq_dec t' t) as [-> | Hne].
    + now rewrite set_phase_same.
    + rewrite set_phase_other by assumption. now apply Iq.
  - intros t' Hin. destruct (Nat.eq_dec t' t) as [-> | Hne].
    + now rewrite set_phase_same.
    + rewrite set_phase_other by assumption. apply Ig.
      apply in_app_or in Hin. destruct Hin as [Hin | [E | []]]; [assumption |].
      now subst.
  - exact Ind.
  - rewrite Hq, filter_app in *. simpl in *.
    rewrite (mem_not_In _ _ Hnl), app_nil_r in Io.
    assert (Ht : mem (replicate_log s ++ [t]) t = true).
    { apply mem_In, in_or_app. right. now left. }
    rewrite Ht. f_equal.
    rewrite Io at 1. apply filter_ext_in.
    intros x Hx.
    assert (Hne : x <> t) by (intros ->; contradiction).
    unfold mem. rewrite existsb_app. simpl.
    destruct (Nat.eqb_spec x t); [contradiction |].
    now rewrite !orb_false_r.
Qed.

Lemma acquire_other_inv (l cfg : Lock) (s s' : Pipeline) (t : nat) :
  pipeline_inv l s -> cfg <> l ->
  phase s t = NotStarted ->
  acquire cfg t HoldsConfigLock s = Some s' ->
  pipeline_inv l s'.
Proof.
  intros I Hne Hph Hacq. unfold acquire in Hacq.
  destruct (holder s cfg); [discriminate |].
  injection Hacq as <-.
  apply move_inv; try assumption; rewrite ?Hph; simpl; try discriminate.
  intros t' _ Hin. rewrite set_holder_other by congruence.
  now apply (inv_holder l s I).
Qed.

Lemma acquire_ordering_inv (l : Lock) (s s' : Pipeline) (t : nat) :
  pipeline_inv l s ->
  past_prepare (phase s t) = false ->
  acquire l t HoldsOrderingLock s = Some s' ->
  pipeline_inv l s'.
Proof.
  intros I Hph Hacq. unfold acquire in Hacq.
  destruct (holder s l) eqn:Hfree; [discriminate |].
  injection Hacq as <-.
  assert (Hg : past_replicate (phase s t) = false)
    by (destruct (phase s t); simpl in *; congruence).
  apply move_inv; try assumption; rewrite ?Hph, ?Hg; simpl; try discriminate.
  - intros _. apply set_holder_same.
  - intros t' _ Hin. apply (inv_holder l s I) in Hin. congruence.
Qed.

Lemma release_ordering_inv (l : Lock) (s : Pipeline) (t : nat) :
  pipeline_inv l s ->
  phase s t = ReplicateSubmitted \/ phase s t = Aborting ->
  pipeline_inv l (release l t OrderingLockReleased s).
Proof.
  intros I Hph. unfold release.
  assert (Hheld : holder s l = Some t).
  { apply (inv_holder l s I). destruct Hph as [-> | ->]; reflexivity. }
  apply move_inv; try assumption; simpl; try discriminate; auto.
  intros t' Hne Hin. apply (inv_holder l s I) in Hin. congruence.
Qed.

Lemma finish_inv (l : Lock) (s : Pipeline) (t : nat) (h' : Lock -> option nat) :
  pipeline_inv l s ->
  phase s t = OrderingLockReleased ->
  h' l = holder s l ->
  pipeline_inv l {| phase := set_phase t Finished (phase s);
                    holder := h';
                    prepare_queue := prepare_queue s;
                    replicate_log := replicate_log s |}.
Proof.
  intros I Hph Hh.
  apply move_inv; try assumption; simpl; try discriminate; auto.
  intros t' _ Hin. rewrite Hh. now apply (inv_holder l s I).
Qed.

Lemma fail_inv (l : Lock) (s : Pipeline) (t : nat) :
  pipeline_inv l s ->
  phase s t = HoldsOrderingLock \/ phase s t = PrepareSubmitted ->
  pipeline_inv l (move t Aborting s).
Proof.
  intros I Hph. unfold move.
  apply move_inv; try assumption; simpl; try discriminate; auto.
  - destruct Hph as [-> | ->]; simpl; congruence.
  - intros _. apply (inv_holder l s I). destruct Hph as [-> | ->]; reflexivity.
  - intros t' _ Hin. now apply (inv_holder l s I).
Qed.

(** Every step keeps the invariant. *)
Lemma step_inv (l : Lock) (txs : list Transaction) (a : Action)
    (s s' : Pipeline) :
  ordering_domain l txs ->
  pipeline_inv l s ->
  step txs a s = Some s' ->
  pipeline_inv l s'.
Proof.
  intros Hdom I Hstep. unfold ordering_domain in Hdom.
  rewrite Forall_forall in Hdom.
  destruct a as [t | t]; simpl in Hstep;
    destruct (nth_error txs t) as [tx |] eqn:Etx; try discriminate;
    destruct (Hdom tx (nth_error_In _ _ Etx)) as [Hl Hcfg].
  - rewrite Hl in Hstep.
    destruct (phase s t) eqn:Hph.
    + destruct (tx_config_lock tx) as [cfg |].
      * apply (acquire_other_inv l cfg s s' t); try assumption. congruence.
      * apply (acquire_ordering_inv l s s' t); try assumption.
        now rewrite Hph.
    + apply (acquire_ordering_inv l s s' t); try assumption. now rewrite Hph.
    + injection Hstep as <-. now apply submit_prepare_inv.
    + injection Hstep as <-. now apply submit_replicate_inv.
    + injection Hstep as <-. apply release_ordering_inv; auto.
    + injection Hstep as <-. apply release_ordering_inv; auto.
    + destruct (tx_config_lock tx) as [cfg |]; injection Hstep as <-.
      * apply finish_inv; try assumption.
        apply set_holder_other. congruence.
      * now apply finish_inv.
    + discriminate.
  - destruct (phase s t) eqn:Hph; try discriminate;
      injection Hstep as <-; apply fail_inv; auto.
Qed.

Lemma exec_inv (l : Lock) (txs : list Transaction) (sched : list Action) :
  ordering_domain l txs ->
  forall s s', pipeline_inv l s -> exec txs sched s = Some s' ->
               pipeline_inv l s'.
Proof.
  intros Hdom. induction sched as [| a sched IH]; intros s s' I Hrun.
  - simpl in Hrun. injection Hrun as <-. exact I.
  - simpl in Hrun. destruct (step txs a s) as [s1 |] eqn:Hstep; [| discriminate].
    apply (IH s1 s'); [| exact Hrun].
    exact (step_inv l txs a s s1 Hdom I Hstep).
Qed.

(** Filtering keeps the relative order of the elements it keeps. *)
Lemma before_filter (f : nat -> bool) (a b : nat) (l : list nat) :
  before a b l -> f a = true -> f b = true -> before a b (filter f l).
Proof.
  intros (l1 & l2 & l3 & ->) Ha Hb.
  exists (filter f l1), (filter f l2), (filter f l3).
  rewrite filter_app. simpl. rewrite Ha. rewrite filter_app. simpl.
  rewrite Hb. reflexivity.
Qed.

Lemma before_nth (a b : nat) (l : list nat) :
  before a b l ->
  exists i j, (i < j < List.length l)%nat /\
              nth_error l i = Some a /\ nth_error l j = Some b.
Proof.
  intros (l1 & l2 & l3 & ->).
  exists (List.length l1), (List.length l1 + S (List.length l2))%nat.
  repeat split.
  - lia.
  - rewrite !length_app. simpl. rewrite length_app. simpl. lia.
  - rewrite nth_error_app2 by lia. now rewrite Nat.sub_diag.
  - rewrite nth_error_app2 by lia.
    replace (List.length l1 + S (List.length l2) - List.length l1)%nat
      with (S (List.length l2)) by lia.
    simpl. rewrite nth_error_app2 by lia. now rewrite Nat.sub_diag.
Qed.

(** In a list without repetition the order of two elements is strict. *)
Lemma before_asym (a b : nat) (l : list nat) :
  NoDup l -> before a b l -> ~ before b a l.
Proof.
  intros Hnd Hab Hba.
  apply before_nth in Hab. destruct Hab as (i & j & Hij & Hi & Hj).
  apply before_nth in Hba. destruct Hba as (i' & j' & Hij' & Hi' & Hj').
  rewrite NoDup_nth_error in Hnd.
  assert (i = j') by (apply Hnd; [lia | congruence]).
  assert (j = i') by (apply Hnd; [lia | congruence]).
  lia.
Qed.

(** C9: when all transactions carry the same ordering lock, then in
    every state that any interleaving of their Execute calls can reach,
    (1) a transaction that has submitted its prepare unit and not yet
    reached replicate holds the ordering lock, (2) the operations handed
    to the replication module are the ones of the prepare queue that
    reached replicate, in the order of the prepare queue, and (3) for two
    operations A and B that both reached replicate, with A's prepare
    submitted before B's, A was admitted to replicate before B and not
    the other way round. *)
Theorem replicate_order_follows_prepare_order (l : Lock)
    (txs : list Transaction) (sched : list Action) (s : Pipeline)
    (Hdom : ordering_domain l txs)
    (Hrun : exec txs sched initial = Some s) :
  (forall t, phase s t = PrepareSubmitted -> holder s l = Some t) /\
  replicate_log s = filter (mem (replicate_log s)) (prepare_queue s) /\
  (forall a b,
      before a b (prepare_queue s) ->
      In a (replicate_log s) -> In b (replicate_log s) ->
      before a b (replicate_log s) /\ ~ before b a (replicate_log s)).
Proof.
  assert (I : pipeline_inv l s)
    by exact (exec_inv l txs sched Hdom initial s (initial_inv l) Hrun).
  split; [| split].
  - intros t Hph. apply (inv_holder l s I). now rewrite Hph.
  - exact (inv_order l s I).
  - intros a b Hab Ha Hb.
    assert (Hord : before a b (replicate_log s)).
    { rewrite (inv_order l s I).
      apply before_filter; [assumption | now apply mem_In ..]. }
    split; [exact Hord |].
    apply before_asym; [| exact Hord].
    rewrite (inv_order l s I). apply NoDup_filter, (inv_nodup l s I).
Qed.

Lemma replicate_order_follows_prepare_order_witness :
  prepare_queue final0 = [0; 2; 1]%nat /\
  replicate_log final0 = [2; 1]%nat /\
  before 2 1 (replicate_log final0) /\
  ~ before 1 2 (replicate_log final0).
Proof.
  split; [reflexivity |]. split; [reflexivity |].
  assert (Hdom : ordering_domain prepare_replicate_lock_ three_txs).
  { unfold ordering_domain, three_txs. repeat constructor; simpl; discriminate. }
  assert (Hrun : exec three_txs schedule0 initial = Some final0)
    by reflexivity.
  destruct (replicate_order_follows_prepare_order prepare_replicate_lock_
              three_txs schedule0 final0 Hdom Hrun) as (_ & _ & Hord).
  apply Hord.
  - exists [0%nat], [], []. reflexivity.
  - simpl. auto.
  - simpl. auto.
Defined.

(** The shared lock is what makes the order: two transactions with
    different ordering locks can be admitted to replicate in the opposite
    order of their prepare submissions. *)
Example unrelated_locks_reorder :
  queues (exec unrelated_txs
            [Advance 0; Advance 0; Advance 1; Advance 1; Advance 1; Advance 0]
            initial) = ([0; 1]%nat, [1; 0]%nat).
Proof. reflexivity. Qed.

(** While one transaction holds the shared ordering lock, no other can
    start its pair of submissions. *)
Example shared_lock_blocks :
  exec three_txs [Advance 0; Advance 2] initial = None.
Proof. reflexivity. Qed.


(* ====================================================================== *)
(** ** Locking discipline of the entry points *)
(* ====================================================================== *)

#[local] Arguments new_events : simpl never.

Lemma new_events_same (w : World) : new_events w w = [].
Proof. unfold new_events. apply skipn_all. Qed.

Lemma new_events_literal (p p' : TabletPeer) (tr evs : list Event) :
  new_events {| peer := p; trace := tr |} {| peer := p'; trace := tr ++ evs |}
  = evs.
Proof. exact (new_events_app {| peer := p; trace := tr |} p' evs). Qed.

(** All checks at once, for every call and every start world. *)
Lemma call_events_checked (c : Call) (w : World) :
  state_access_locked (events_of (call c) w) = true /\
  state_lock_is_innermost (events_of (call c) w) = true /\
  transactions_unlocked (events_of (call c) w) = true /\
  bringup_locked (events_of (call c) w) = true /\
  never_locks prepare_replicate_lock_ (events_of (call c) w) = true /\
  (is_some (returned (call c w)) = true ->
   locks_after [] (events_of (call c) w) = Some []).
Proof.
  destruct w as [[st tb qp0 lg0 cn pe ae] tr].
  destruct c as [env tb' qp lg | env q | env | env x | env x | env x];
    destruct env as [ci cs csd mf te dc vl]; peer_cbv; split_call;
    trace_norm; rewrite ?new_events_literal, ?new_events_same;
    repeat split; try reflexivity; try discriminate.
Qed.

(** X1: when a call returns, every lock it took has been released, in
    the reverse order of acquisition, and no lock was taken twice. *)
Theorem locks_released_on_return (c : Call) (w w' : World) (r : Status)
    (H : call c w = Returned r w') :
  locks_after [] (events_of (call c) w) = Some [].
Proof.
  apply (call_events_checked c w). rewrite H. reflexivity.
Qed.

Lemma locks_released_on_return_witness :
  locks_after [] (events_of (call (CallStart (env_ok true) quorum0))
                            configuring_world) = Some [].
Proof.
  apply (locks_released_on_return (CallStart (env_ok true) quorum0)
           configuring_world running_world OK).
  vm_compute. reflexivity.
Defined.

Lemma Init_constructs_consensus_locked env tb qp lg w :
  In ([internal_state_lock_], EvConsensusNew)
     (annotate [] (events_of (Init env tb qp lg) w)).
Proof.
  destruct w as [[st tb0 qp0 lg0 cn pe ae] tr].
  destruct env as [ci cs csd mf te dc vl].
  destruct tb as [t |], lg as [l |]; peer_cbv; split_call;
    trace_norm; rewrite ?new_events_literal; simpl; auto 10.
Qed.

(** X2: in every call, whether it returns or aborts, [state_] is read and
    written only while the state lock is held, and the entry point itself
    takes none of the peer's locks while it holds the state lock: the
    state lock is always the innermost guard.  The guarded block of Init
    is not limited to member updates: the new consensus object is
    constructed inside it. *)
Theorem state_lock_guards_state (c : Call) (w : World) :
  state_access_locked (events_of (call c) w) = true /\
  state_lock_is_innermost (events_of (call c) w) = true /\
  (forall env tb qp lg,
      In ([internal_state_lock_], EvConsensusNew)
         (annotate [] (events_of (Init env tb qp lg) w))).
Proof.
  split; [apply (call_events_checked c w) |].
  split; [apply (call_events_checked c w) |].
  intros env tb qp lg. apply Init_constructs_consensus_locked.
Qed.

(** X3: in every call, transactions are constructed and executed while
    the peer holds none of its locks, and the peer never takes the
    ordering lock [prepare_replicate_lock_] itself: it only hands it to
    the transactions. *)
Theorem transactions_run_unlocked (c : Call) (w : World) :
  transactions_unlocked (events_of (call c) w) = true /\
  never_locks prepare_replicate_lock_ (events_of (call c) w) = true.
Proof.
  split; apply (call_events_checked c w).
Qed.

(** X4: the calls that bring the configuration up (the consensus
    module's Start, SetQuorum and Flush on the metadata, the write of
    RUNNING) happen only while the configuration lock is held, on every
    path of every call. *)
Theorem bringup_under_config_lock (c : Call) (w : World) :
  bringup_locked (events_of (call c) w) = true.
Proof.
  apply (call_events_checked c w).
Qed.

(** The checks are not vacuous: the constructor writes the state without
    any lock, and each of the other checks rejects a trace that breaks
    it. *)
Example checks_can_fail :
  state_access_locked (trace fresh_world) = false /\
  state_lock_is_innermost [EvLock internal_state_lock_; EvLock config_lock_] =
  false /\
  transactions_unlocked
    [EvLock config_lock_;
     EvExecute (change_config_tx (peer fresh_world) {| config_payload := 1 |})]
  = false /\
  bringup_locked [EvConsensusStart quorum0] = false /\
  locks_after [] [EvLock config_lock_; EvLock internal_state_lock_;
                  EvUnlock config_lock_] = None.
Proof. repeat split; reflexivity. Qed.

(* ====================================================================== *)
(** ** Outcome of Init *)
(* ====================================================================== *)

(** X5: when Init returns, it returns exactly what the consensus
    module's Init answered; the handles and the new consensus object are
    stored and the state is CONFIGURING either way; the tablet is told
    about the consensus object only when that answer was OK. *)
Theorem Init_outcome (env : Collaborators) (tb : option Tablet)
    (qp : QuorumPeerPB) (lg : option Log) (w w' : World) (r : Status)
    (H : Init env tb qp lg w = Returned r w') :
  r = consensus_Init env qp lg /\
  state_ (peer w') = CONFIGURING /\
  quorum_peer_ (peer w') = qp /\
  log_ (peer w') = lg /\
  consensus_ (peer w') = Some (LocalConsensus Build_ConsensusOptions) /\
  (r = OK ->
   exists t, tb = Some t /\
             tablet_ (peer w') = Some (Tablet_SetConsensus (consensus_ (peer w')) t) /\
             wired_consensus w' = consensus_ (peer w')) /\
  (r <> OK ->
   tablet_ (peer w') = tb /\ ~ In EvSetConsensus (events_of (Init env tb qp lg) w)).
Proof.
  destruct w as [[st tb0 qp0 lg0 cn pe ae] tr].
  destruct w' as [[st' tb1 qp1 lg1 cn1 pe1 ae1] tr1].
  destruct env as [ci cs csd mf te dc vl].
  revert H. peer_cbv. split_call; intros H; try discriminate H;
    inversion H; subst; clear H; tablet_cbv;
    repeat match goal with |- _ /\ _ => split end; try reflexivity;
    intros Hr; try discriminate Hr; try (exfalso; apply Hr; reflexivity).
  all: try (eexists; repeat split; reflexivity).
  all: split; [reflexivity |]; trace_norm; rewrite new_events_literal;
       simpl; intuition discriminate.
Qed.

Lemma Init_outcome_witness :
  state_ (peer configuring_world) = CONFIGURING /\
  wired_consensus configuring_world = consensus_ (peer configuring_world).
Proof.
  assert (E : Init (env_ok true) (Some tablet0) peer_a (Some log0) fresh_world =
              Returned OK configuring_world) by (vm_compute; reflexivity).
  destruct (Init_outcome (env_ok true) (Some tablet0) peer_a (Some log0)
              fresh_world configuring_world OK E)
    as (_ & Hs & _ & _ & _ & Hok & _).
  destruct (Hok eq_refl) as (t & _ & _ & Hw).
  split; assumption.
Defined.

(* ====================================================================== *)
(** ** Admission of submissions *)
(* ====================================================================== *)

Lemma Submit_accepted_constructs env w cw ca :
  state_ (peer w) = RUNNING ->
  constructed_by (SubmitWrite env cw) w = [write_tx (peer w) cw] /\
  returned (SubmitWrite env cw w) =
  Some (transaction_Execute env (write_tx (peer w) cw)) /\
  constructed_by (SubmitAlterSchema env ca) w = [alter_schema_tx (peer w) ca] /\
  returned (SubmitAlterSchema env ca w) =
  Some (transaction_Execute env (alter_schema_tx (peer w) ca)).
Proof.
  intros H. unfold constructed_by.
  rewrite (SubmitWrite_accepted env cw w H),
          (SubmitAlterSchema_accepted env ca w H).
  unfold submitted, rejected. simpl world_of. trace_norm.
  rewrite !new_events_app. repeat split.
Qed.

Lemma Submit_rejected_constructs env w cw ca :
  state_ (peer w) <> RUNNING ->
  constructed_by (SubmitWrite env cw) w = [] /\
  constructed_by (SubmitAlterSchema env ca) w = [].
Proof.
  intros H. unfold constructed_by.
  rewrite (SubmitWrite_rejected env cw w H),
          (SubmitAlterSchema_rejected env ca w H).
  unfold rejected. simpl world_of. rewrite !new_events_app. split; reflexivity.
Qed.

(** X6: SubmitWrite and SubmitAlterSchema construct a transaction exactly
    when the state is RUNNING, and then return what the Execute of that
    one transaction returned, whatever it is. *)
Theorem Submit_admits_iff_running (env : Collaborators) (w : World)
    (cw : WriteTransactionContext) (ca : AlterSchemaTransactionContext) :
  (constructed_by (SubmitWrite env cw) w <> [] <-> state_ (peer w) = RUNNING) /\
  (constructed_by (SubmitAlterSchema env ca) w <> [] <->
   state_ (peer w) = RUNNING) /\
  (state_ (peer w) = RUNNING ->
   constructed_by (SubmitWrite env cw) w = [write_tx (peer w) cw] /\
   returned (SubmitWrite env cw w) =
   Some (transaction_Execute env (write_tx (peer w) cw)) /\
   constructed_by (SubmitAlterSchema env ca) w = [alter_schema_tx (peer w) ca] /\
   returned (SubmitAlterSchema env ca w) =
   Some (transaction_Execute env (alter_schema_tx (peer w) ca))).
Proof.
  pose proof (Submit_accepted_constructs env w cw ca) as Hacc.
  pose proof (Submit_rejected_constructs env w cw ca) as Hrej.
  split; [| split; [| exact Hacc]].
  - split.
    + intros Hne. destruct (state_eqb (state_ (peer w)) RUNNING) eqn:E.
      * now apply state_eqb_eq.
      * apply state_eqb_neq in E. destruct (Hrej E) as [H1 _]. contradiction.
    + intros H. destruct (Hacc H) as (H1 & _). rewrite H1. discriminate.
  - split.
    + intros Hne. destruct (state_eqb (state_ (peer w)) RUNNING) eqn:E.
      * now apply state_eqb_eq.
      * apply state_eqb_neq in E. destruct (Hrej E) as [_ H1]. contradiction.
    + intros H. destruct (Hacc H) as (_ & _ & H1 & _). rewrite H1. discriminate.
Qed.

(** X7: no Submit entry point changes any member of the peer, in any
    state and whatever the transaction answers. *)
Theorem Submit_never_changes_peer (env : Collaborators) (w : World)
    (cw : WriteTransactionContext) (ca : AlterSchemaTransactionContext)
    (cc : ChangeConfigTransactionContext) :
  peer (world_of (SubmitWrite env cw w)) = peer w /\
  peer (world_of (SubmitAlterSchema env ca w)) = peer w /\
  peer (world_of (SubmitChangeConfig env cc w)) = peer w.
Proof.
  split; [apply SubmitWrite_peer |].
  split; [apply SubmitAlterSchema_peer | apply SubmitChangeConfig_peer].
Qed.

(* ====================================================================== *)
(** ** Transitions of the lifecycle state *)
(* ====================================================================== *)

Lemma Start_changes_state_only_on_OK env q w :
  state_ (peer (world_of (Start env q w))) <> state_ (peer w) ->
  returned (Start env q w) = Some OK /\
  state_ (peer (world_of (Start env q w))) = RUNNING.
Proof.
  destruct w as [[st tb0 qp0 lg0 cn pe ae] tr].
  destruct env as [ci cs csd mf te dc vl].
  peer_cbv. split_call; intros H; try (exfalso; apply H; reflexivity).
  all: split; reflexivity.
Qed.

(** X8: a call changes the lifecycle state only in two ways: Init (on
    any path) sets it to CONFIGURING, and a Start that returns OK sets
    it to RUNNING.  Start on an error path, Shutdown and the Submit entry
    points never change it. *)
Theorem state_changes_only_by_Init_and_Start (c : Call) (w : World)
    (H : state_ (peer (world_of (call c w))) <> state_ (peer w)) :
  (is_Init c = true /\ state_ (peer (world_of (call c w))) = CONFIGURING) \/
  (exists env q, c = CallStart env q /\
                 returned (call c w) = Some OK /\
                 state_ (peer (world_of (call c w))) = RUNNING).
Proof.
  destruct c as [env tb qp lg | env q | env | env x | env x | env x];
    cbv beta iota zeta delta [call is_Init] in *.
  - left. split; [reflexivity | apply Init_state].
  - right. exists env, q.
    destruct (Start_changes_state_only_on_OK env q w H) as [Hr Hs].
    repeat split; assumption.
  - rewrite Shutdown_peer in H. contradiction.
  - rewrite SubmitWrite_peer in H. contradiction.
  - rewrite SubmitAlterSchema_peer in H. contradiction.
  - rewrite SubmitChangeConfig_peer in H. contradiction.
Qed.

Lemma state_changes_only_by_Init_and_Start_witness :
  exists env q,
    CallStart (env_ok true) quorum0 = CallStart env q /\
    returned (call (CallStart (env_ok true) quorum0) configuring_world) = Some OK /\
    state_ (peer (world_of (call (CallStart (env_ok true) quorum0)
                             configuring_world))) = RUNNING.
Proof.
  destruct (state_changes_only_by_Init_and_Start
              (CallStart (env_ok true) quorum0) configuring_world)
    as [[Hi _] | Hs].
  - vm_compute. discriminate.
  - discriminate Hi.
  - exact Hs.
Defined.

(* ====================================================================== *)
(** ** What holds along every sequence of calls *)
(* ====================================================================== *)

(** A property that every call keeps holds in every world of a run. *)
Lemma run_invariant (P : World -> Prop) :
  (forall c w, P w -> P (world_of (call c w))) ->
  forall cs w, P w -> Forall P (run cs w).
Proof.
  intros Hstep. induction cs as [| c cs IH]; intros w Hw.
  - constructor.
  - simpl. pose proof (Hstep c w Hw) as Hw'.
    destruct (call c w) as [r w' | why w']; simpl in Hw'.
    + constructor; [assumption | now apply IH].
    + constructor; [assumption | constructor].
Qed.

Lemma call_keeps_pools (c : Call) (w : World) :
  prepare_executor_ (peer (world_of (call c w))) = prepare_executor_ (peer w) /\
  apply_executor_ (peer (world_of (call c w))) = apply_executor_ (peer w).
Proof.
  destruct w as [[st tb0 qp0 lg0 cn pe ae] tr].
  destruct c as [env tb' qp lg | env q | env | env x | env x | env x];
    destruct env as [ci cs csd mf te dc vl]; peer_cbv; split_call;
    split; reflexivity.
Qed.


(** X9: no entry point ever replaces or drops the two pools: along every
    sequence of calls the peer owns the prepare pool with one thread and
    the apply pool with [n] threads that its constructor created. *)
Theorem pools_never_change (errno n : Z) (w0 : World) (cs : list Call)
    (Hn : - 2 ^ 31 <= n < 2 ^ 31)
    (H0 : TabletPeer_new errno n = NewPeer w0) :
  Forall (owns_pools (TaskExecutor_CreateNew "prepare exec" 1)
                     (TaskExecutor_CreateNew "apply exec" n))
         (w0 :: run cs w0).
Proof.
  assert (Hw0 : owns_pools (TaskExecutor_CreateNew "prepare exec" 1)
                           (TaskExecutor_CreateNew "apply exec" n) w0).
  { unfold TabletPeer_new in H0. rewrite (int_of_long_small n Hn) in H0.
    destruct (negb (errno =? 0)); [discriminate |].
    destruct (negb (n >? 0)); [discriminate |].
    injection H0 as <-. split; reflexivity. }
  constructor; [exact Hw0 |].
  apply run_invariant; [| exact Hw0].
  intros c w [Hp Ha]. destruct (call_keeps_pools c w) as [Ep Ea].
  split; congruence.
Qed.

Lemma pools_never_change_witness :
  Forall (owns_pools (TaskExecutor_CreateNew "prepare exec" 1)
                     (TaskExecutor_CreateNew "apply exec" 4))
         (fresh_world :: run calls0 fresh_world).
Proof.
  apply (pools_never_change 0 4 fresh_world calls0).
  - lia.
  - vm_compute. reflexivity.
Defined.





(* ====================================================================== *)
(** ** How the entry points compose *)
(* ====================================================================== *)

(** X12: Shutdown does not close the peer for submissions: on a RUNNING
    peer whose handles are attached, a SubmitWrite that follows a
    Shutdown is admitted; its transaction is constructed with the
    executors on which Shutdown has just been called, and is executed. *)
Theorem Submit_after_Shutdown_admitted (env1 env2 : Collaborators)
    (w : World) (c : Consensus) (pe ae : TaskExecutor) (t : Tablet)
    (cw : WriteTransactionContext)
    (Hr : state_ (peer w) = RUNNING)
    (Hc : consensus_ (peer w) = Some c)
    (Hp : prepare_executor_ (peer w) = Some pe)
    (Ha : apply_executor_ (peer w) = Some ae)
    (Ht : tablet_ (peer w) = Some t) :
  returned (Shutdown env1 w) = Some OK /\
  In (EvExecutorShutdown pe) (events_of (Shutdown env1) w) /\
  In (EvExecutorShutdown ae) (events_of (Shutdown env1) w) /\
  constructed_by (SubmitWrite env2 cw) (world_of (Shutdown env1 w)) =
  [write_tx (peer w) cw] /\
  tx_prepare_executor (write_tx (peer w) cw) = Some pe /\
  tx_apply_executor (write_tx (peer w) cw) = Some ae /\
  returned (SubmitWrite env2 cw (world_of (Shutdown env1 w))) =
  Some (transaction_Execute env2 (write_tx (peer w) cw)).
Proof.
  assert (Hv : vlog_is_on env1 = true -> tablet_ (peer w) <> None)
    by (intros _; rewrite Ht; discriminate).
  pose proof (Shutdown_returns env1 w c pe ae Hc Hp Ha Hv) as E1.
  assert (Hev : events_of (Shutdown env1) w =
                Shutdown_events env1 (peer w) pe ae).
  { unfold events_of. rewrite E1. simpl world_of. apply new_events_app. }
  assert (Hpeer : peer (world_of (Shutdown env1 w)) = peer w)
    by apply Shutdown_peer.
  assert (Hr1 : state_ (peer (world_of (Shutdown env1 w))) = RUNNING)
    by (rewrite Hpeer; exact Hr).
  rewrite Hev. unfold constructed_by.
  rewrite (SubmitWrite_accepted env2 cw _ Hr1).
  unfold submitted, rejected. simpl world_of. simpl peer. simpl trace.
  trace_norm. rewrite new_events_app. rewrite Hpeer.
  split; [rewrite E1; reflexivity |].
  split; [| split].
  - unfold Shutdown_events.
    destruct (ok (consensus_Shutdown env1)); simpl; auto.
  - unfold Shutdown_events.
    destruct (ok (consensus_Shutdown env1)); simpl; auto.
  - simpl. unfold write_tx. simpl. rewrite Hp, Ha. repeat split.
Qed.

Lemma Submit_after_Shutdown_admitted_witness :
  returned (SubmitWrite env_init_fails {| write_payload := 9 |}
              (world_of (Shutdown (env_ok true) running_world))) =
  Some (Error kServiceUnavailable "queue full").
Proof.
  destruct (Submit_after_Shutdown_admitted (env_ok true) env_init_fails
              running_world (LocalConsensus Build_ConsensusOptions)
              (TaskExecutor_CreateNew "prepare exec" 1)
              (TaskExecutor_CreateNew "apply exec" 4)
              (Tablet_Flushed
                 (Tablet_SetQuorum quorum1
                    (Tablet_SetConsensus
                       (Some (LocalConsensus Build_ConsensusOptions)) tablet0)))
              {| write_payload := 9 |}
              eq_refl eq_refl eq_refl eq_refl eq_refl)
    as (_ & _ & _ & _ & _ & _ & H).
  exact H.
Defined.



Lemma Init_succeeds env t qp l w :
  consensus_Init env qp (Some l) = OK ->
  Init env (Some t) qp (Some l) w =
  Returned OK
    {| peer := with_tablet_state
                 (Tablet_SetConsensus
                    (Some (LocalConsensus Build_ConsensusOptions)) t)
                 CONFIGURING
                 (peer (attached (Some t) qp (Some l) w));
       trace := trace (attached (Some t) qp (Some l) w) ++
                [EvConsensusInit qp (Some l); EvSetConsensus] |}.
Proof.
  destruct w as [[st tb0 qp0 lg0 cn pe ae] tr].
  destruct env as [ci cs csd mf te dc vl].
  cbv beta iota zeta delta [consensus_Init].
  intros H. peer_cbv. rewrite H.
  destruct dc; cbv beta iota zeta;
    cbv beta iota zeta delta [attached with_tablet_state peer trace
      prepare_executor_ apply_executor_ quorum_peer_ log_ consensus_];
    trace_norm; reflexivity.
Qed.

(** X14: bringing a peer up.  On a host with [n] processors, if the
    consensus module's Init and Start and the metadata flush succeed,
    then constructing the peer, Init with a tablet and a log, and Start
    leave the peer RUNNING with the effective configuration durable, and
    a SubmitWrite that follows is admitted with the pools of one and of
    [n] threads and returns what its transaction's Execute returns. *)
Theorem bring_up_admits_writes (n : Z) (env1 env2 env3 : Collaborators)
    (t : Tablet) (qp : QuorumPeerPB) (l : Log) (q cfg : QuorumPB)
    (cw : WriteTransactionContext)
    (Hn : 0 < n < 2 ^ 31)
    (Hi : consensus_Init env1 qp (Some l) = OK)
    (Hs : consensus_Start env2 q = (OK, Some cfg))
    (Hf : metadata_Flush env2 = OK) :
  exists w0 w1 w2 tx,
    TabletPeer_new 0 n = NewPeer w0 /\
    Init env1 (Some t) qp (Some l) w0 = Returned OK w1 /\
    Start env2 q w1 = Returned OK w2 /\
    state_ (peer w2) = RUNNING /\
    durable_quorum w2 = Some cfg /\
    constructed_by (SubmitWrite env3 cw) w2 = [tx] /\
    tx_consensus tx = Some (LocalConsensus Build_ConsensusOptions) /\
    tx_prepare_executor tx = Some (TaskExecutor_CreateNew "prepare exec" 1) /\
    tx_apply_executor tx = Some (TaskExecutor_CreateNew "apply exec" n) /\
    returned (SubmitWrite env3 cw w2) = Some (transaction_Execute env3 tx).
Proof.
  assert (Hctor : exists w0,
             TabletPeer_new 0 n = NewPeer w0 /\
             prepare_executor_ (peer w0) =
               Some (TaskExecutor_CreateNew "prepare exec" 1) /\
             apply_executor_ (peer w0) =
               Some (TaskExecutor_CreateNew "apply exec" n)).
  { unfold TabletPeer_new. rewrite int_of_long_small by lia. simpl.
    destruct (Z.gtb_spec n 0) as [_ | Hle]; [| lia]. simpl.
    eexists. repeat split. }
  destruct Hctor as (w0 & E0 & Hp & Ha).
  pose proof (Init_succeeds env1 t qp l w0 Hi) as E1.
  set (w1 := {| peer := with_tablet_state
                          (Tablet_SetConsensus
                             (Some (LocalConsensus Build_ConsensusOptions)) t)
                          CONFIGURING
                          (peer (attached (Some t) qp (Some l) w0));
                trace := trace (attached (Some t) qp (Some l) w0) ++
                         [EvConsensusInit qp (Some l); EvSetConsensus] |}) in *.
  pose proof (Start_succeeds env2 q w1
                (LocalConsensus Build_ConsensusOptions)
                (Tablet_SetConsensus
                   (Some (LocalConsensus Build_ConsensusOptions)) t)
                cfg eq_refl eq_refl Hs Hf) as E2.
  set (w2 := {| peer := with_tablet_state
                          (Tablet_Flushed
                             (Tablet_SetQuorum cfg
                                (Tablet_SetConsensus
                                   (Some (LocalConsensus Build_ConsensusOptions))
                                   t)))
                          RUNNING (peer w1);
                trace := trace w1 ++ Start_events q cfg |}) in *.
  assert (Hr : state_ (peer w2) = RUNNING) by reflexivity.
  exists w0, w1, w2, (write_tx (peer w2) cw).
  split; [exact E0 |]. split; [exact E1 |]. split; [exact E2 |].
  split; [exact Hr |]. split; [reflexivity |].
  destruct (Submit_accepted_constructs env3 w2 cw {| alter_payload := 0 |} Hr)
    as (Hcon & Hret & _).
  split; [exact Hcon |].
  split; [reflexivity |]. split; [exact Hp |]. split; [exact Ha | exact Hret].
Qed.

Lemma bring_up_admits_writes_witness :
  exists w0 w1 w2 tx,
    TabletPeer_new 0 8 = NewPeer w0 /\
    Init (env_ok true) (Some tablet0) peer_a (Some log0) w0 = Returned OK w1 /\
    Start (env_ok false) quorum0 w1 = Returned OK w2 /\
    state_ (peer w2) = RUNNING /\
    durable_quorum w2 = Some quorum1 /\
    constructed_by (SubmitWrite env_init_fails {| write_payload := 1 |}) w2 =
      [tx] /\
    tx_consensus tx = Some (LocalConsensus Build_ConsensusOptions) /\
    tx_prepare_executor tx = Some (TaskExecutor_CreateNew "prepare exec" 1) /\
    tx_apply_executor tx = Some (TaskExecutor_CreateNew "apply exec" 8) /\
    returned (SubmitWrite env_init_fails {| write_payload := 1 |} w2) =
      Some (transaction_Execute env_init_fails tx).
Proof.
  apply (bring_up_admits_writes 8 (env_ok true) (env_ok false) env_init_fails
           tablet0 peer_a log0 quorum0 quorum1 {| write_payload := 1 |}).
  - lia.
  - reflexivity.
  - reflexivity.
  - reflexivity.
Defined.

(* ====================================================================== *)
(** ** The configuration lock outside Start *)
(* ====================================================================== *)

(** X15: Start is the only entry point whose own body takes the
    configuration lock: Init, Shutdown and the Submit entry points never
    take it themselves, on any path.  SubmitChangeConfig hands it to the
    transaction it constructs instead, and the transactions of
    SubmitWrite and SubmitAlterSchema are handed no configuration lock;
    what Execute does with the lock is outside these functions. *)
Theorem config_lock_guard_only_in_Start (c : Call) (w : World)
    (H : is_Start c = false) :
  never_locks config_lock_ (events_of (call c) w) = true /\
  (forall t, In t (constructed_by (call c) w) ->
             tx_config_lock t =
             if is_SubmitChangeConfig c then Some config_lock_ else None).
Proof.
  unfold constructed_by.
  destruct w as [[st tb0 qp0 lg0 cn pe ae] tr].
  destruct c as [env tb' qp lg | env q | env | env x | env x | env x];
    try discriminate H;
    destruct env as [ci cs csd mf te dc vl]; peer_cbv;
    cbv beta iota zeta delta [is_SubmitChangeConfig]; split_call;
    trace_norm; rewrite ?new_events_literal, ?new_events_same;
    (split; [reflexivity |]); simpl;
    intros tx0 Hin; repeat (destruct Hin as [<- | Hin]; [reflexivity |]);
    destruct Hin.
Qed.

Lemma config_lock_guard_only_in_Start_witness :
  never_locks config_lock_
    (events_of (call (CallSubmitChangeConfig (env_ok true)
                        {| config_payload := 3 |}))
               running_world) = true /\
  (forall t,
      In t (constructed_by (call (CallSubmitChangeConfig (env_ok true)
                                    {| config_payload := 3 |}))
                           running_world) ->
      tx_config_lock t = Some config_lock_).
Proof.
  apply (config_lock_guard_only_in_Start
           (CallSubmitChangeConfig (env_ok true) {| config_payload := 3 |})
           running_world).
  reflexivity.
Defined.
